(** * zgbc: the Python ctypes binding of libzgbc

    A shallow embedding of [bindings/python/zgbc.py].  The binding is a thin
    object wrapper over the C ABI of the native emulator core, so the model
    has three layers:

    - [Ctypes]: the fragment of the ctypes / memoryview runtime the binding
      relies on (integer wrap-around, arrays, buffer views and their casts);
    - [Zgbc]: the binding itself, written in a state-and-exception monad over
      the process state (native world, the [GameBoy] object, a log of the
      foreign calls made);
    - [Core]: the part of the native core that is not in the source tree,
      modelled from the design document where a property depends on it. *)

From Stdlib Require Import ZArith List String Ascii Bool Lia.
From ExtLib Require Import Structures.Monad Structures.MonadState Structures.MonadExc.
From ExtLib Require Import Data.Monads.StateMonad Data.Monads.EitherMonad.
Import ListNotations.
Import MonadNotation.
Local Open Scope monad_scope.
Local Open Scope string_scope.
Local Open Scope list_scope.
Local Open Scope Z_scope.

(** ** Exceptions *)

(** The exception classes the binding can raise or let through.  The second
    argument of [RuntimeError] is [__cause__], set by [raise ... from err]. *)
#[warnings="-register-all"]
Inductive exn : Type :=
| RuntimeError (msg : string) (cause : option exn)
| OSError (what : string)
| TypeError (msg : string)
| ValueError (msg : string)
| AttributeError (name : string).

Definition is_OSError (e : exn) : bool :=
  match e with OSError _ => true | _ => false end.

(** ** The ctypes and memoryview runtime *)

Module Ctypes.

(** The simple C types used in the prototypes.  ctypes does no overflow
    checking: a Python int is reduced modulo the width of the C type. *)
Inductive ctype : Type := c_uint8_t | c_int16_t | c_uint32_t.

Definition sizeof (t : ctype) : Z :=
  match t with c_uint8_t => 1 | c_int16_t => 2 | c_uint32_t => 4 end.

(** struct-module code of the element type. *)
Definition fmtchar (t : ctype) : string :=
  match t with c_uint8_t => "B" | c_int16_t => "h" | c_uint32_t => "I" end.

Definition c_uint8 (v : Z) : Z := v mod 2 ^ 8.
Definition c_uint16 (v : Z) : Z := v mod 2 ^ 16.
Definition c_uint32 (v : Z) : Z := v mod 2 ^ 32.
Definition c_size_t (v : Z) : Z := v mod 2 ^ 64.
Definition c_int16 (v : Z) : Z := (v + 2 ^ 15) mod 2 ^ 16 - 2 ^ 15.

(** Value stored in an array slot of type [t]. *)
Definition store (t : ctype) (v : Z) : Z :=
  match t with
  | c_uint8_t => c_uint8 v
  | c_int16_t => c_int16 v
  | c_uint32_t => c_uint32 v
  end.

(** [restype = c_void_p]: a NULL pointer comes back as [None], any other
    pointer as a Python int. *)
Definition c_void_p_restype (p : Z) : option Z :=
  if p =? 0 then None else Some p.

(** [argtypes = c_void_p]: [None] is passed as NULL. *)
Definition c_void_p_param (h : option Z) : Z :=
  match h with None => 0 | Some p => p mod 2 ^ 64 end.

(** Truth value of [None] or an int. *)
Definition truthy (h : option Z) : bool :=
  match h with None => false | Some p => negb (p =? 0) end.

(** A ctypes array instance: element type and current contents.  The
    length is part of the array type and never changes. *)
Record Array : Type := mkArray { elt : ctype; elems : list Z }.

(** [(t * n)()]: [n] zero-initialised elements; a negative length is a
    [ValueError]. *)
Definition new_array (t : ctype) (n : Z) : exn + Array :=
  if n <? 0 then inl (ValueError "Array length must be >= 0")
  else inr (mkArray t (repeat 0 (Z.to_nat n))).

(** [(c_uint8 * len(data)).from_buffer_copy(data)]. *)
Definition from_buffer_copy (data : list Byte.byte) : Array :=
  mkArray c_uint8_t (map (fun b => Z.of_N (Byte.to_N b)) data).

(** What a callee writing [out] from the start of the array leaves in it:
    the written prefix, reduced to the element type, then the untouched
    rest.  Writes never change the array's length. *)
Definition fill (a : Array) (out : list Z) : Array :=
  mkArray (elt a)
    (firstn (List.length (elems a))
       (map (store (elt a)) out ++ skipn (List.length out) (elems a))).

(** Little-endian bytes of the two's-complement image of [v] on [n] bytes. *)
Fixpoint le_bytes (n : nat) (v : Z) : list Z :=
  match n with
  | O => []
  | S n' => v mod 256 :: le_bytes n' (v / 256)
  end.

(** The unsigned value a little-endian byte string stands for. *)
Definition le_value (bytes : list Z) : Z :=
  fold_right (fun b acc => b + 256 * acc) 0 bytes.

Definition raw_bytes (a : Array) : list Z :=
  flat_map (le_bytes (Z.to_nat (sizeof (elt a)))) (elems a).

(** A one-dimensional buffer view: format string, item size and the bytes
    it exposes. *)
Record memoryview : Type :=
  mkView { format : string; itemsize : Z; view_bytes : list Z }.

(** Number of items of the view, [len(m)]. *)
Definition view_len (m : memoryview) : Z :=
  Z.of_nat (List.length (view_bytes m)) / itemsize m.

(** [memoryview(arr)]: ctypes exports the explicit byte order in the
    format (little-endian hosts: ["<h"], ["<I"], ...). *)
Definition memoryview_of (a : Array) : memoryview :=
  mkView (String.append "<" (fmtchar (elt a))) (sizeof (elt a)) (raw_bytes a).

(** [m[:stop]] on a one-dimensional view: [stop] counts items, a negative
    [stop] counts from the end, and the bound is clamped to the length. *)
Definition slice_to (m : memoryview) (stop : Z) : memoryview :=
  let n := view_len m in
  let stop' := if stop <? 0 then Z.max 0 (n + stop) else Z.min stop n in
  mkView (format m) (itemsize m)
    (firstn (Z.to_nat (stop' * itemsize m)) (view_bytes m)).

(** Size of a native single-character format (LP64), [None] otherwise. *)
Definition native_char_size (c : ascii) : option Z :=
  if existsb (Ascii.eqb c) ["c"; "b"; "B"; "?"]%char then Some 1
  else if existsb (Ascii.eqb c) ["h"; "H"; "e"]%char then Some 2
  else if existsb (Ascii.eqb c) ["i"; "I"; "f"]%char then Some 4
  else if existsb (Ascii.eqb c) ["l"; "L"; "q"; "Q"; "n"; "N"; "d"; "P"]%char
  then Some 8
  else None.

(** A native single-character format, optionally prefixed with ['@']. *)
Definition get_native_fmtchar (fmt : string) : option (ascii * Z) :=
  let body :=
    match fmt with
    | String "@" rest => rest
    | _ => fmt
    end in
  match body with
  | String c EmptyString =>
      match native_char_size c with
      | Some sz => Some (c, sz)
      | None => None
      end
  | _ => None
  end.

Definition is_byte_format (c : ascii) : bool :=
  existsb (Ascii.eqb c) ["b"; "B"; "c"]%char.

(** [m.cast(fmt)] for a one-dimensional view.  The destination must be a
    native format; unless the destination is a byte format, the source
    must be a native byte format; the byte length must be a multiple of
    the new item size. *)
Definition cast (m : memoryview) (fmt : string) : exn + memoryview :=
  match get_native_fmtchar fmt with
  | None =>
      inl (ValueError "memoryview: destination format must be a native single character format prefixed with an optional '@'")
  | Some (destchar, sz) =>
      let src_is_byte :=
        match get_native_fmtchar (format m) with
        | Some (srcchar, _) => is_byte_format srcchar
        | None => false
        end in
      if negb src_is_byte && negb (is_byte_format destchar)
      then inl (TypeError "memoryview: cannot cast between two non-byte formats")
      else if negb (Z.of_nat (List.length (view_bytes m)) mod sz =? 0)
      then inl (TypeError "memoryview: length is not a multiple of itemsize")
      else inr (mkView fmt sz (view_bytes m))
  end.

End Ctypes.

(** ** The binding *)

Module Zgbc.

Definition FRAME_WIDTH : Z := 160.
Definition FRAME_HEIGHT : Z := 144.
Definition SAMPLE_RATE : Z := 44100.

Module Buttons.
Definition A : Z := Z.shiftl 1 0.
Definition B : Z := Z.shiftl 1 1.
Definition SELECT : Z := Z.shiftl 1 2.
Definition START : Z := Z.shiftl 1 3.
Definition RIGHT : Z := Z.shiftl 1 4.
Definition LEFT : Z := Z.shiftl 1 5.
Definition UP : Z := Z.shiftl 1 6.
Definition DOWN : Z := Z.shiftl 1 7.
End Buttons.

(** [sys.platform.startswith("win")] and friends. *)
Definition _default_library_names (platform : string) : list string :=
  if String.prefix "win" platform then ["zgbc.dll"]
  else if String.eqb platform "darwin" then ["libzgbc.dylib"; "zgbc.dylib"]
  else ["libzgbc.so"].

(** Message of the [RuntimeError] of [load_library]. *)
Definition not_found : string :=
  "Unable to locate libzgbc; set ZGBC_LIB or pass path explicitly".

(** A foreign call as the native side sees it: the C-level arguments after
    ctypes has converted them. *)
Inductive call : Type :=
| Call_new
| Call_free (handle : Z)
| Call_load_rom (handle : Z) (buf : list Z) (len : Z)
| Call_frame (handle : Z)
| Call_set_input (handle : Z) (buttons : Z)
| Call_set_render_graphics (handle : Z) (flag : bool)
| Call_set_render_audio (handle : Z) (flag : bool)
| Call_get_frame_rgba (handle : Z) (capacity : nat)
| Call_get_audio_samples (handle : Z) (capacity : nat) (max_samples : Z)
| Call_write (handle : Z) (addr : Z) (value : Z).

Definition is_free (c : call) : bool :=
  match c with Call_free _ => true | _ => false end.

Definition is_frame (c : call) : bool :=
  match c with Call_frame _ => true | _ => false end.

(** The handle argument of a foreign call; [zgbc_new] takes none. *)
Definition call_handle (c : call) : option Z :=
  match c with
  | Call_new => None
  | Call_free h => Some h
  | Call_load_rom h _ _ => Some h
  | Call_frame h => Some h
  | Call_set_input h _ => Some h
  | Call_set_render_graphics h _ => Some h
  | Call_set_render_audio h _ => Some h
  | Call_get_frame_rgba h _ => Some h
  | Call_get_audio_samples h _ _ => Some h
  | Call_write h _ _ => Some h
  end.

(** Calls that all carry handle [p] and free nothing. *)
Definition carry (p : Z) (calls : list call) : Prop :=
  Forall (fun c => call_handle c = Some p /\ is_free c = false) calls.

(** The constants of [Buttons], and the mask [b1 | b2 | ...] a caller
    builds from the buttons held down. *)
Definition all_buttons : list Z :=
  [Buttons.A; Buttons.B; Buttons.SELECT; Buttons.START;
   Buttons.RIGHT; Buttons.LEFT; Buttons.UP; Buttons.DOWN].

Definition pressed_mask (pressed : list Z) : Z :=
  fold_right Z.lor 0 pressed.

(** The [rom] argument: [bytes], or a [str] / [os.PathLike] path. *)
Inductive rom_arg : Type :=
| RomBytes (data : list Byte.byte)
| RomPath (path : string).

Section Binding.

(** State of the native side of the process (every emulator instance
    that libzgbc has allocated). *)
Variable W : Type.

(** A loaded libzgbc: the exported functions, as transitions of the
    native state.  Pointer arguments that the callee writes through are
    modelled by the list of elements it writes from the start of the
    buffer. *)
Record CDLL : Type := mkCDLL {
  zgbc_new : W -> Z * W;
  zgbc_free : Z -> W -> W;
  zgbc_load_rom : Z -> list Z -> Z -> W -> bool * W;
  zgbc_frame : Z -> W -> W;
  zgbc_set_input : Z -> Z -> W -> W;
  zgbc_set_render_graphics : Z -> bool -> W -> W;
  zgbc_set_render_audio : Z -> bool -> W -> W;
  zgbc_get_frame_rgba : Z -> W -> list Z * W;
  zgbc_get_audio_samples : Z -> Z -> W -> (list Z * Z) * W;
  zgbc_write : Z -> Z -> Z -> W -> W
}.

(** What the binding reads from the operating system. *)
Record OS : Type := mkOS {
  sys_platform : string;
  environ : string -> option string;
  dlopen : string -> option CDLL;
  read_bytes : string -> option (list Byte.byte)
}.

(** The attributes of a [GameBoy] object.  An outer [None] is an
    attribute that was never assigned; [_handle] holds Python's [None]
    or an int. *)
Record GameBoy : Type := mkGameBoy {
  _lib : option CDLL;
  _handle : option (option Z)
}.

Record St : Type := mkSt {
  os : OS;
  world : W;
  log : list call;
  self : GameBoy
}.

(** Computations that may raise; the state reached before a raise is
    kept, as in Python. *)
Definition Py : Type -> Type := eitherT exn (state St).

Definition run {A : Type} (m : Py A) (s : St) : (exn + A) * St :=
  runState (unEitherT m) s.

Definition lift_result {A : Type} (r : exn + A) : Py A :=
  match r with inl e => raise e | inr a => ret a end.

(** [ctypes.CDLL(name)]. *)
Definition CDLL_open (name : string) : Py CDLL :=
  s <- get ;;
  match dlopen (os s) name with
  | Some l => ret l
  | None => raise (OSError name)
  end.

(** [try: c  except OSError as err: h err]. *)
Definition except_OSError {A : Type} (c : Py A) (h : exn -> Py A) : Py A :=
  catch c (fun e => if is_OSError e then h e else raise e).

(** The [for name in ...] loop of [load_library] with its [last_err]. *)
Fixpoint try_names (names : list string) (last_err : option exn) : Py CDLL :=
  match names with
  | [] =>
      raise (RuntimeError not_found last_err)
  | name :: rest =>
      except_OSError (CDLL_open name) (fun err => try_names rest (Some err))
  end.

Definition load_library (path : option string) : Py CDLL :=
  match path with
  | Some p => CDLL_open p
  | None =>
      s <- get ;;
      let defaults :=
        try_names (_default_library_names (sys_platform (os s))) None in
      match environ (os s) "ZGBC_LIB" with
      | None => defaults
      | Some env_path =>
          if String.eqb env_path "" then defaults else CDLL_open env_path
      end
  end.

(** *** Attribute access and foreign calls *)

Definition get_lib : Py CDLL :=
  s <- get ;;
  match _lib (self s) with
  | Some l => ret l
  | None => raise (AttributeError "_lib")
  end.

Definition get_handle : Py (option Z) :=
  s <- get ;;
  match _handle (self s) with
  | Some h => ret h
  | None => raise (AttributeError "_handle")
  end.

Definition set_self (o : GameBoy) : Py unit :=
  s <- get ;; put (mkSt (os s) (world s) (log s) o).

(** A call into the library: the native state moves and the call is
    appended to the log. *)
Definition ffi {A : Type} (c : call) (f : W -> A * W) : Py A :=
  s <- get ;;
  let (a, w) := f (world s) in
  put (mkSt (os s) w (log s ++ [c]) (self s)) ;;
  ret a.

Definition ffi_ (c : call) (f : W -> W) : Py unit :=
  ffi c (fun w => (tt, f w)).

(** *** class GameBoy *)

Definition load_rom (rom : rom_arg) : Py unit :=
  data <- match rom with
          | RomPath p =>
              s <- get ;;
              match read_bytes (os s) p with
              | Some d => ret d
              | None => raise (OSError p)
              end
          | RomBytes d => ret d
          end ;;
  let buf := Ctypes.from_buffer_copy data in
  let len := Ctypes.c_size_t (Z.of_nat (List.length data)) in
  l <- get_lib ;;
  h <- get_handle ;;
  let p := Ctypes.c_void_p_param h in
  ok <- ffi (Call_load_rom p (Ctypes.elems buf) len)
            (zgbc_load_rom l p (Ctypes.elems buf) len) ;;
  if negb ok then raise (RuntimeError "zgbc_load_rom() failed" None)
  else ret tt.

(** [__init__(rom, lib=lib)].  Between storing [_lib] and calling
    [zgbc_new] the source only declares the prototypes ([restype] and
    [argtypes]); they fix the conversions that the methods apply to their
    arguments and results: [c_void_p] for handles, [c_uint8], [c_uint16],
    [c_size_t] and [c_bool] for scalars, pointers to arrays for buffers. *)
Definition __init__ (rom : option rom_arg) (lib : option CDLL) : Py unit :=
  l <- match lib with
       | Some l => ret l
       | None => load_library None
       end ;;
  s <- get ;;
  set_self (mkGameBoy (Some l) (_handle (self s))) ;;
  l <- get_lib ;;
  p <- ffi Call_new (zgbc_new l) ;;
  s <- get ;;
  set_self (mkGameBoy (_lib (self s)) (Some (Ctypes.c_void_p_restype p))) ;;
  h <- get_handle ;;
  if negb (Ctypes.truthy h)
  then raise (RuntimeError "zgbc_new() returned NULL" None)
  else match rom with
       | Some r => load_rom r
       | None => ret tt
       end.

(** The object as [__new__] leaves it: no attribute assigned yet. *)
Definition fresh (s : St) : St :=
  mkSt (os s) (world s) (log s) (mkGameBoy None None).

(** [GameBoy(rom, lib=lib)]: a fresh object without attributes, then
    [__init__] on it. *)
Definition construct (rom : option rom_arg) (lib : option CDLL) : Py unit :=
  s <- get ;;
  put (fresh s) ;;
  __init__ rom lib.

Definition __del__ : Py unit :=
  s <- get ;;
  let handle :=
    match _handle (self s) with
    | Some h => h
    | None => None
    end in
  set_self (mkGameBoy (_lib (self s)) (Some None)) ;;
  if Ctypes.truthy handle
  then catch (l <- get_lib ;;
              let p := Ctypes.c_void_p_param handle in
              ffi_ (Call_free p) (zgbc_free l p))
             (fun _ => ret tt)
  else ret tt.

Definition skip_boot : Py unit :=
  l <- get_lib ;;
  h <- get_handle ;;
  let p := Ctypes.c_void_p_param h in
  let addr := Ctypes.c_uint16 0xFF50 in
  let value := Ctypes.c_uint8 1 in
  ffi_ (Call_write p addr value) (zgbc_write l p addr value).

Definition frame : Py unit :=
  l <- get_lib ;;
  h <- get_handle ;;
  let p := Ctypes.c_void_p_param h in
  ffi_ (Call_frame p) (zgbc_frame l p).

Definition set_input (buttons : Z) : Py unit :=
  l <- get_lib ;;
  h <- get_handle ;;
  let p := Ctypes.c_void_p_param h in
  let b := Ctypes.c_uint8 (Z.land buttons 0xFF) in
  ffi_ (Call_set_input p b) (zgbc_set_input l p b).

Definition set_headless (graphics audio : bool) : Py unit :=
  l <- get_lib ;;
  h <- get_handle ;;
  let p := Ctypes.c_void_p_param h in
  ffi_ (Call_set_render_graphics p graphics)
       (zgbc_set_render_graphics l p graphics) ;;
  l <- get_lib ;;
  h <- get_handle ;;
  let p := Ctypes.c_void_p_param h in
  ffi_ (Call_set_render_audio p audio) (zgbc_set_render_audio l p audio).

Definition get_frame_rgba : Py Ctypes.memoryview :=
  buf <- lift_result
           (Ctypes.new_array Ctypes.c_uint32_t (FRAME_WIDTH * FRAME_HEIGHT)) ;;
  l <- get_lib ;;
  h <- get_handle ;;
  let p := Ctypes.c_void_p_param h in
  out <- ffi (Call_get_frame_rgba p (List.length (Ctypes.elems buf)))
             (zgbc_get_frame_rgba l p) ;;
  lift_result (Ctypes.cast (Ctypes.memoryview_of (Ctypes.fill buf out)) "B").

Definition get_audio_samples (max_samples : Z) : Py Ctypes.memoryview :=
  buf <- lift_result (Ctypes.new_array Ctypes.c_int16_t max_samples) ;;
  l <- get_lib ;;
  h <- get_handle ;;
  let p := Ctypes.c_void_p_param h in
  let cap := Ctypes.c_size_t max_samples in
  r <- ffi (Call_get_audio_samples p (List.length (Ctypes.elems buf)) cap)
           (zgbc_get_audio_samples l p cap) ;;
  let count := Ctypes.c_size_t (snd r) in
  lift_result
    (Ctypes.cast
       (Ctypes.slice_to (Ctypes.memoryview_of (Ctypes.fill buf (fst r)))
          (count * 2))
       "h").

(** The object is bound to library [l] and stores [h] as its handle. *)
Definition attached (s : St) (l : CDLL) (h : option Z) : Prop :=
  _lib (self s) = Some l /\ _handle (self s) = Some h.

(** The state after one foreign call [c] that moved the native side to [w]. *)
Definition called (s : St) (c : call) (w : W) : St :=
  mkSt (os s) w (log s ++ [c]) (self s).

(** Whether a run ended in an exception. *)
Definition raised {A : Type} (r : (exn + A) * St) : bool :=
  match fst r with inl _ => true | inr _ => false end.

(** Number of [zgbc_free] calls made so far. *)
Definition frees (s : St) : nat :=
  List.length (filter is_free (log s)).

(** Number of [zgbc_frame] calls made so far. *)
Definition frames (s : St) : nat :=
  List.length (filter is_frame (log s)).

(** [n] successive calls of a method. *)
Fixpoint times (n : nat) (m : Py unit) : Py unit :=
  match n with
  | O => ret tt
  | S k => m ;; times k m
  end.

(** One use of the object by its owner: a method call, its result
    dropped, or a run of the finaliser. *)
Inductive op : Type :=
| Op_load_rom (rom : rom_arg)
| Op_skip_boot
| Op_frame
| Op_set_input (buttons : Z)
| Op_set_headless (graphics audio : bool)
| Op_get_frame_rgba
| Op_get_audio_samples (max_samples : Z)
| Op_del.

Definition is_del (o : op) : bool :=
  match o with Op_del => true | _ => false end.

Definition perform (o : op) : Py unit :=
  match o with
  | Op_load_rom rom => load_rom rom
  | Op_skip_boot => skip_boot
  | Op_frame => frame
  | Op_set_input buttons => set_input buttons
  | Op_set_headless graphics audio => set_headless graphics audio
  | Op_get_frame_rgba => _ <- get_frame_rgba ;; ret tt
  | Op_get_audio_samples max_samples =>
      _ <- get_audio_samples max_samples ;; ret tt
  | Op_del => __del__
  end.

(** A caller that goes on after a failure: each use wrapped in
    [try: ... except Exception: pass]. *)
Fixpoint session (ops : list op) : Py unit :=
  match ops with
  | [] => ret tt
  | o :: rest => catch (perform o) (fun _ => ret tt) ;; session rest
  end.

End Binding.

Arguments mkCDLL {W}.
Arguments zgbc_new {W}.
Arguments zgbc_free {W}.
Arguments zgbc_load_rom {W}.
Arguments zgbc_frame {W}.
Arguments zgbc_set_input {W}.
Arguments zgbc_set_render_graphics {W}.
Arguments zgbc_set_render_audio {W}.
Arguments zgbc_get_frame_rgba {W}.
Arguments zgbc_get_audio_samples {W}.
Arguments zgbc_write {W}.
Arguments dlopen {W}.
Arguments sys_platform {W}.
Arguments environ {W}.
Arguments read_bytes {W}.
Arguments CDLL_open {W}.
Arguments try_names {W}.
Arguments get_lib {W}.
Arguments get_handle {W}.
Arguments mkSt {W}.
Arguments mkOS {W}.
Arguments mkGameBoy {W}.
Arguments os {W}.
Arguments world {W}.
Arguments log {W}.
Arguments self {W}.
Arguments _lib {W}.
Arguments _handle {W}.
Arguments run {W A}.
Arguments load_library {W}.
Arguments load_rom {W}.
Arguments __init__ {W}.
Arguments construct {W}.
Arguments __del__ {W}.
Arguments skip_boot {W}.
Arguments frame {W}.
Arguments set_input {W}.
Arguments set_headless {W}.
Arguments get_frame_rgba {W}.
Arguments get_audio_samples {W}.
Arguments times {W}.
Arguments attached {W}.
Arguments fresh {W}.
Arguments frees {W}.
Arguments frames {W}.
Arguments called {W}.
Arguments raised {W A}.
Arguments perform {W}.
Arguments session {W}.

End Zgbc.

(** ** The native core *)

Module Core.

Section Model.

(** Left open by the design document: the length of a frame in clock
    ticks, the boot image, the cartridge-header check of the loader, the
    picture and the samples a frame produces, and the high-water mark of
    the audio queue. *)
Variable ticks_per_frame : Z.
Variable boot_image : list Z.
Variable valid_image : list Z -> bool.
Variable queue_limit : nat.

(** Modelled from the spec: the state of one emulator instance of
    libzgbc, which is not in the source tree.  Only what the boundary
    calls of section 6 expose is kept: the clock ticks consumed so far,
    the loaded cartridge image, the boot-overlay latch, the latched
    button mask, the two render toggles, the last completed frame and
    the queue of audio samples. *)
Record gb : Type := mkGb {
  cycles : Z;
  cart : list Z;
  boot_off : bool;
  buttons : Z;
  render_graphics : bool;
  render_audio : bool;
  frame_buffer : list Z;
  audio_queue : list Z
}.

Variable render : gb -> list Z.
Variable synth : gb -> list Z.

(** Modelled from the spec: the instances owned by libzgbc, by handle,
    with the next free handle and the number of instances that can still
    be allocated ("resource exhaustion" is the only construction
    failure). *)
Record world : Type := mkWorld {
  heap : Z -> option gb;
  next : Z;
  room : nat
}.

(** Modelled from the spec: "create: all state at power-on defaults". *)
Definition power_on : gb :=
  mkGb 0 [] false 0 true true (repeat 0 (Z.to_nat (160 * 144))) [].

(** Modelled from the spec: instances are isolated; replacing the state
    behind one handle leaves every other instance as it was. *)
Definition update (h : Z) (g : gb) (w : world) : world :=
  mkWorld (fun k => if k =? h then Some g else heap w k) (next w) (room w).

(** Modelled from the spec: a boundary call acts on the instance behind
    its handle; on a handle that names no instance it has no effect. *)
Definition on_instance (h : Z) (f : gb -> gb) (w : world) : world :=
  match heap w h with
  | Some g => update h (f g) w
  | None => w
  end.

(** Modelled from the spec: create; NULL when resources are exhausted. *)
Definition new (w : world) : Z * world :=
  match room w with
  | O => (0, w)
  | S r => (next w,
            mkWorld (fun k => if k =? next w then Some power_on else heap w k)
                    (next w + 1) r)
  end.

(** Modelled from the spec: destroy; the handle is invalid afterwards. *)
Definition free (h : Z) (w : world) : world :=
  mkWorld (fun k => if k =? h then None else heap w k) (next w) (room w).

(** Modelled from the spec: load ROM; a rejected image is reported by
    [false] and leaves the instance as it was. *)
Definition load (h : Z) (image : list Z) (len : Z) (w : world) : bool * world :=
  match heap w h with
  | Some g =>
      if valid_image image
      then (true,
            update h (mkGb (cycles g) image (boot_off g) (buttons g)
                           (render_graphics g) (render_audio g)
                           (frame_buffer g) (audio_queue g)) w)
      else (false, w)
  | None => (false, w)
  end.

(** Modelled from the spec: "a frame() call always completes
    deterministically in a fixed number of simulated ticks"; the frame
    buffer is overwritten and the new samples are queued, the oldest
    being dropped above the high-water mark. *)
Definition advance (g : gb) : gb :=
  let q := audio_queue g ++ synth g in
  mkGb (cycles g + ticks_per_frame) (cart g) (boot_off g) (buttons g)
       (render_graphics g) (render_audio g)
       (render g) (skipn (List.length q - queue_limit) q).

(** Modelled from the spec: raw memory write.  "A single write to a
    designated register (0xFF50) permanently disables the overlay";
    the other addresses reach parts of the machine that are not
    modelled. *)
Definition bus_write (addr value : Z) (g : gb) : gb :=
  if addr =? 0xFF50
  then mkGb (cycles g) (cart g) true (buttons g)
            (render_graphics g) (render_audio g)
            (frame_buffer g) (audio_queue g)
  else g.

(** Modelled from the spec: "while active, addresses 0x0000-0x00FF read
    from an internal boot image instead of cartridge ROM". *)
Definition bus_read_low (g : gb) (addr : Z) : Z :=
  if boot_off g
  then nth (Z.to_nat addr) (cart g) 0
  else nth (Z.to_nat addr) boot_image 0.

(** Modelled from the spec: set input "latches button state for
    subsequent reads". *)
Definition latch_input (b : Z) (g : gb) : gb :=
  mkGb (cycles g) (cart g) (boot_off g) b
       (render_graphics g) (render_audio g)
       (frame_buffer g) (audio_queue g).

(** Modelled from the spec: the headless toggles; they "must not
    desynchronize internal timing", so only the flag changes. *)
Definition toggle_graphics (b : bool) (g : gb) : gb :=
  mkGb (cycles g) (cart g) (boot_off g) (buttons g)
       b (render_audio g) (frame_buffer g) (audio_queue g).

(** Modelled from the spec: the audio counterpart of [toggle_graphics]. *)
Definition toggle_audio (b : bool) (g : gb) : gb :=
  mkGb (cycles g) (cart g) (boot_off g) (buttons g)
       (render_graphics g) b (frame_buffer g) (audio_queue g).

(** Modelled from the spec: read frame buffer. *)
Definition read_frame (h : Z) (w : world) : list Z * world :=
  match heap w h with
  | Some g => (frame_buffer g, w)
  | None => ([], w)
  end.

(** Modelled from the spec: read audio samples; "copies up to capacity
    queued samples, returns count actually written, drains the queue by
    that amount". *)
Definition read_audio (h : Z) (capacity : Z) (w : world) : (list Z * Z) * world :=
  match heap w h with
  | Some g =>
      let n := Nat.min (Z.to_nat capacity) (List.length (audio_queue g)) in
      ((firstn n (audio_queue g), Z.of_nat n),
       update h (mkGb (cycles g) (cart g) (boot_off g) (buttons g)
                      (render_graphics g) (render_audio g)
                      (frame_buffer g) (skipn n (audio_queue g))) w)
  | None => (([], 0), w)
  end.

(** Modelled from the spec: the boundary calls of section 6 as a
    library. *)
Definition lib : Zgbc.CDLL world :=
  Zgbc.mkCDLL
    new
    free
    load
    (fun h => on_instance h advance)
    (fun h b => on_instance h (latch_input b))
    (fun h b => on_instance h (toggle_graphics b))
    (fun h b => on_instance h (toggle_audio b))
    read_frame
    read_audio
    (fun h addr value => on_instance h (bus_write addr value)).

(** The object of process [s] is bound to this library and stores the
    handle [h] of the live instance [g]. *)
Definition owns (s : Zgbc.St world) (h : Z) (g : gb) : Prop :=
  Zgbc.attached s lib (Some h) /\
  0 < h < 2 ^ 64 /\
  heap (Zgbc.world s) h = Some g.

(** Ticks consumed so far by the instance behind a handle. *)
Definition elapsed (w : world) (h : Z) : option Z :=
  option_map cycles (heap w h).

End Model.

End Core.

(** ** A concrete process, for running the binding *)

Module Demo.

(** A loader that accepts every non-empty image. *)
Definition accepts (image : list Z) : bool :=
  negb (Nat.eqb (List.length image) 0).

Definition picture (g : Core.gb) : list Z :=
  repeat (Core.cycles g) (Z.to_nat (160 * 144)).

Definition samples (g : Core.gb) : list Z := [1; 2; 3].

Definition boot : list Z := repeat 0x31 256.

Definition libzgbc : Zgbc.CDLL Core.world :=
  Core.lib 70224 accepts 8 picture samples.

(** A Linux host where [libzgbc.so] is on the search path, [ZGBC_LIB] is
    unset and no file can be read. *)
Definition linux : Zgbc.OS Core.world :=
  Zgbc.mkOS "linux" (fun _ => None)
    (fun name => if String.eqb name "libzgbc.so" then Some libzgbc else None)
    (fun _ => None).

(** A host where no library can be found. *)
Definition bare : Zgbc.OS Core.world :=
  Zgbc.mkOS "darwin" (fun _ => None) (fun _ => None) (fun _ => None).

(** The native side before any instance exists, with room for one. *)
Definition empty_world : Core.world :=
  Core.mkWorld (fun _ => None) 1 1.

Definition start : Zgbc.St Core.world :=
  Zgbc.mkSt linux empty_world [] (Zgbc.mkGameBoy None None).

(** The process after [gb = GameBoy(lib=libzgbc)]. *)
Definition booted : Zgbc.St Core.world :=
  Zgbc.mkSt linux
    (Core.mkWorld (fun k => if k =? 1 then Some Core.power_on else None) 2 0)
    [Zgbc.Call_new]
    (Zgbc.mkGameBoy (Some libzgbc) (Some (Some 1))).

(** A one-byte cartridge image. *)
Definition tiny_rom : list Byte.byte := [Byte.xc3].

(** The instance of [booted] once [tiny_rom] is loaded. *)
Definition cartridge_in : Core.gb :=
  Core.mkGb 0 [0xC3] false 0 true true (Core.frame_buffer Core.power_on) [].

(** The process after [gb.load_rom(tiny_rom)]. *)
Definition loaded : Zgbc.St Core.world :=
  snd (Zgbc.run (Zgbc.load_rom (Zgbc.RomBytes tiny_rom)) booted).

(** The process after one more [gb.frame()]: three samples are queued. *)
Definition played : Zgbc.St Core.world :=
  snd (Zgbc.run Zgbc.frame loaded).

(** The same host with one ROM file on disk. *)
Definition linux_with_rom : Zgbc.OS Core.world :=
  Zgbc.mkOS "linux" (fun _ => None)
    (fun name => if String.eqb name "libzgbc.so" then Some libzgbc else None)
    (fun path => if String.eqb path "roms/tiny.gb" then Some tiny_rom else None).

(** [booted] on that host. *)
Definition booted_with_rom : Zgbc.St Core.world :=
  Zgbc.mkSt linux_with_rom (Zgbc.world booted) (Zgbc.log booted) (Zgbc.self booted).

(** A process on the host without any library, before construction. *)
Definition stranded : Zgbc.St Core.world :=
  Zgbc.mkSt bare empty_world [] (Zgbc.mkGameBoy None None).

End Demo.

(** * Properties of the binding *)

Section RunFacts.

Variable W : Type.
Implicit Types (s : Zgbc.St W) (l : Zgbc.CDLL W) (h : option Z).

Lemma run_ret {A : Type} (a : A) s :
  Zgbc.run (ret a : Zgbc.Py W A) s = (inr a, s).
Proof. reflexivity. Qed.

Lemma run_raise {A : Type} (e : exn) s :
  Zgbc.run (raise e : Zgbc.Py W A) s = (inl e, s).
Proof. reflexivity. Qed.

Lemma run_bind {A B : Type} (m : Zgbc.Py W A) (k : A -> Zgbc.Py W B) s :
  Zgbc.run (bind m k) s =
  match Zgbc.run m s with
  | (inl e, s') => (inl e, s')
  | (inr a, s') => Zgbc.run (k a) s'
  end.
Proof.
  unfold Zgbc.run; cbn.
  destruct (runState (unEitherT m) s) as [[e | a] s']; reflexivity.
Qed.

Lemma run_get_lib s l :
  Zgbc._lib (Zgbc.self s) = Some l -> Zgbc.run Zgbc.get_lib s = (inr l, s).
Proof. intros Hl. unfold Zgbc.run, Zgbc.get_lib; cbn. now rewrite Hl. Qed.

Lemma run_get_handle s h :
  Zgbc._handle (Zgbc.self s) = Some h -> Zgbc.run Zgbc.get_handle s = (inr h, s).
Proof. intros Hh. unfold Zgbc.run, Zgbc.get_handle; cbn. now rewrite Hh. Qed.

Lemma run_ffi {A : Type} (c : Zgbc.call) (f : W -> A * W) s :
  Zgbc.run (Zgbc.ffi W c f) s =
  (inr (fst (f (Zgbc.world s))), Zgbc.called s c (snd (f (Zgbc.world s)))).
Proof.
  unfold Zgbc.run, Zgbc.ffi; cbn.
  destruct (f (Zgbc.world s)); reflexivity.
Qed.

Lemma run_lift_result {A : Type} (r : exn + A) s :
  Zgbc.run (Zgbc.lift_result W r) s = (r, s).
Proof. destruct r; reflexivity. Qed.

Lemma run_get_bind {A : Type} (k : Zgbc.St W -> Zgbc.Py W A) s :
  Zgbc.run (bind get k) s = Zgbc.run (k s) s.
Proof. unfold Zgbc.run; cbn. destruct (runState (unEitherT (k s)) s); reflexivity. Qed.

Lemma run_set_self (o : Zgbc.GameBoy W) s :
  Zgbc.run (Zgbc.set_self W o) s =
  (inr tt, Zgbc.mkSt (Zgbc.os s) (Zgbc.world s) (Zgbc.log s) o).
Proof. reflexivity. Qed.

Lemma run_CDLL_open (name : string) s :
  Zgbc.run (Zgbc.CDLL_open name) s =
  (match Zgbc.dlopen (Zgbc.os s) name with
   | Some l => inr l
   | None => inl (OSError name)
   end, s).
Proof.
  unfold Zgbc.run, Zgbc.CDLL_open; cbn.
  destruct (Zgbc.dlopen (Zgbc.os s) name); reflexivity.
Qed.

Lemma run_except_OSError {A : Type} (c : Zgbc.Py W A) (hdl : exn -> Zgbc.Py W A) s :
  Zgbc.run (Zgbc.except_OSError W c hdl) s =
  match Zgbc.run c s with
  | (inl e, s') => if is_OSError e then Zgbc.run (hdl e) s' else (inl e, s')
  | (inr a, s') => (inr a, s')
  end.
Proof.
  unfold Zgbc.run, Zgbc.except_OSError; cbn.
  destruct (runState (unEitherT c) s) as [[e | a] s']; [destruct (is_OSError e) |];
    reflexivity.
Qed.

End RunFacts.

(** Stepping a method body: a bind whose head is one of the primitive
    actions is replaced by its continuation. *)
Ltac step H :=
  rewrite run_bind;
  first [ rewrite (run_get_lib _ _ _ (proj1 H))
        | rewrite (run_get_handle _ _ _ (proj2 H))
        | rewrite run_ffi
        | rewrite run_ret ];
  cbv beta iota.

Ltac call_native H :=
  repeat step H; unfold Zgbc.ffi_; rewrite run_ffi.

(** ** Arrays and buffer views *)

Section BufferFacts.

Import Ctypes.

Lemma new_array_ok (t : ctype) (n : Z) :
  0 <= n -> new_array t n = inr (mkArray t (repeat 0 (Z.to_nat n))).
Proof.
  intros Hn. unfold new_array.
  destruct (Z.ltb_spec n 0); [lia | reflexivity].
Qed.

Lemma store_zero (t : ctype) : store t 0 = 0.
Proof. destruct t; reflexivity. Qed.

Lemma length_le_bytes (n : nat) : forall v, List.length (le_bytes n v) = n.
Proof. induction n as [| n IH]; intros v; cbn; [| rewrite IH]; reflexivity. Qed.

Lemma le_value_le_bytes (n : nat) :
  forall v, le_value (le_bytes n v) = v mod 256 ^ Z.of_nat n.
Proof.
  induction n as [| n IH]; intros v.
  - cbn. now rewrite Z.mod_1_r.
  - cbn [le_bytes le_value fold_right]. fold (le_value (le_bytes n (v / 256))).
    rewrite IH, Nat2Z.inj_succ, Z.pow_succ_r by lia.
    rewrite Z.rem_mul_r by lia. reflexivity.
Qed.

Lemma length_raw_bytes (a : Array) :
  Z.of_nat (List.length (raw_bytes a)) =
  sizeof (elt a) * Z.of_nat (List.length (elems a)).
Proof.
  unfold raw_bytes.
  rewrite (flat_map_constant_length (c := Z.to_nat (sizeof (elt a))))
    by (intros; apply length_le_bytes).
  destruct (elt a); cbn [sizeof]; lia.
Qed.

(** The bytes of element [i] sit at offset [n * i]. *)
Lemma raw_chunk (n : nat) (l : list Z) :
  forall i d, (i < List.length l)%nat ->
    firstn n (skipn (n * i) (flat_map (le_bytes n) l)) = le_bytes n (nth i l d).
Proof.
  induction l as [| a l IH]; intros i d Hi; cbn [List.length] in Hi; [lia |].
  cbn [flat_map]. destruct i as [| i].
  - rewrite Nat.mul_0_r. cbn [skipn nth].
    rewrite firstn_app, length_le_bytes, Nat.sub_diag, firstn_O, app_nil_r.
    apply firstn_all2. rewrite length_le_bytes. lia.
  - rewrite skipn_app, length_le_bytes.
    rewrite skipn_all2 by (rewrite length_le_bytes; lia).
    cbn [app nth]. replace (n * S i - n)%nat with (n * i)%nat by lia.
    apply IH. lia.
Qed.

Lemma length_fill (a : Array) (out : list Z) :
  List.length (elems (fill a out)) = List.length (elems a).
Proof.
  unfold fill; cbn [elems]. apply firstn_length_le.
  rewrite length_app, length_map, length_skipn. lia.
Qed.

(** In a zeroed array, slot [i] holds what the callee wrote there, reduced
    to the element type, and zero where it wrote nothing. *)
Lemma nth_fill_zeroed (t : ctype) (n i : nat) (out : list Z) :
  (i < n)%nat ->
  nth i (elems (fill (mkArray t (repeat 0 n)) out)) 0 = store t (nth i out 0).
Proof.
  intros Hi. unfold fill; cbn [elems elt].
  rewrite repeat_length, nth_firstn.
  destruct (Nat.ltb_spec i n); [| lia].
  destruct (Nat.lt_ge_cases i (List.length out)) as [Hlt | Hge].
  - rewrite app_nth1 by (rewrite length_map; exact Hlt).
    rewrite <- (store_zero t) at 1. apply map_nth.
  - rewrite app_nth2 by (rewrite length_map; exact Hge).
    rewrite (nth_overflow out) by exact Hge. rewrite store_zero.
    rewrite nth_skipn. apply nth_repeat.
Qed.

Lemma cast_to_bytes (m : memoryview) :
  cast m "B" = inr (mkView "B" 1 (view_bytes m)).
Proof.
  unfold cast. change (get_native_fmtchar "B") with (Some ("B"%char, 1)).
  cbv beta iota. change (is_byte_format "B") with true.
  rewrite andb_false_r, Z.mod_1_r. reflexivity.
Qed.

Lemma cast_h_from_ctypes (m : memoryview) :
  format m = "<h" ->
  cast m "h" = inl (TypeError "memoryview: cannot cast between two non-byte formats").
Proof. intros H. unfold cast. rewrite H. reflexivity. Qed.

(** A slice of the view of an [int16] array counts items, not bytes. *)
Lemma slice_counts_items (els : list Z) (stop : Z) :
  0 <= stop ->
  view_len (slice_to (memoryview_of (mkArray c_int16_t els)) stop)
  = Z.min stop (Z.of_nat (List.length els)).
Proof.
  intros Hs. unfold slice_to, view_len, memoryview_of.
  cbn [view_bytes itemsize format elt sizeof].
  pose proof (length_raw_bytes (mkArray c_int16_t els)) as L.
  cbn [elt elems sizeof] in L. rewrite L.
  replace (2 * Z.of_nat (List.length els) / 2) with (Z.of_nat (List.length els))
    by (rewrite Z.mul_comm, Z.div_mul; lia).
  destruct (Z.ltb_spec stop 0); [lia |].
  rewrite length_firstn. rewrite Nat2Z.inj_min, L, Z2Nat.id by lia.
  replace (Z.min (Z.min stop (Z.of_nat (List.length els)) * 2)
                 (2 * Z.of_nat (List.length els)))
    with (Z.min stop (Z.of_nat (List.length els)) * 2) by lia.
  apply Z.div_mul. lia.
Qed.

End BufferFacts.

Section MethodFacts.

Variable W : Type.
Implicit Types (s : Zgbc.St W) (l : Zgbc.CDLL W) (h : option Z).

Lemma skip_boot_run s l h :
  Zgbc.attached s l h ->
  let p := Ctypes.c_void_p_param h in
  Zgbc.run Zgbc.skip_boot s =
  (inr tt, Zgbc.called s (Zgbc.Call_write p 0xFF50 1)
                       (Zgbc.zgbc_write l p 0xFF50 1 (Zgbc.world s))).
Proof.
  intros H p. unfold Zgbc.skip_boot. call_native H. reflexivity.
Qed.

Lemma frame_run s l h :
  Zgbc.attached s l h ->
  let p := Ctypes.c_void_p_param h in
  Zgbc.run Zgbc.frame s =
  (inr tt, Zgbc.called s (Zgbc.Call_frame p) (Zgbc.zgbc_frame l p (Zgbc.world s))).
Proof.
  intros H p. unfold Zgbc.frame. call_native H. reflexivity.
Qed.

Lemma load_rom_run s l h (data : list Byte.byte) :
  Zgbc.attached s l h ->
  let p := Ctypes.c_void_p_param h in
  let buf := Ctypes.elems (Ctypes.from_buffer_copy data) in
  let len := Ctypes.c_size_t (Z.of_nat (List.length data)) in
  let r := Zgbc.zgbc_load_rom l p buf len (Zgbc.world s) in
  Zgbc.run (Zgbc.load_rom (Zgbc.RomBytes data)) s =
  (if fst r then inr tt else inl (RuntimeError "zgbc_load_rom() failed" None),
   Zgbc.called s (Zgbc.Call_load_rom p buf len) (snd r)).
Proof.
  intros H p buf len r. unfold Zgbc.load_rom.
  rewrite run_bind, run_ret. cbv beta iota zeta.
  do 2 step H. rewrite run_bind, run_ffi. cbv beta iota.
  fold p buf len r. destruct (fst r); reflexivity.
Qed.

Lemma land_0xFF (v : Z) : Ctypes.c_uint8 (Z.land v 0xFF) = v mod 2 ^ 8.
Proof.
  unfold Ctypes.c_uint8. change 0xFF with (Z.ones 8).
  rewrite Z.land_ones by lia. apply Z.mod_mod. lia.
Qed.

(** C2: on a byte buffer, [load_rom] raises exactly when the native load
    call returns false; when it returns true the method returns [None];
    in both cases the only effect is the one native call, the object keeps
    its library and handle, and after a failed load a further [load_rom]
    that the native side accepts returns normally. *)
Theorem load_rom_raises_iff_native_fails s l h (data : list Byte.byte) :
  Zgbc.attached s l h ->
  let p := Ctypes.c_void_p_param h in
  let image d := Ctypes.elems (Ctypes.from_buffer_copy d) in
  let size d := Ctypes.c_size_t (Z.of_nat (List.length d)) in
  let r := Zgbc.zgbc_load_rom l p (image data) (size data) (Zgbc.world s) in
  let out := Zgbc.run (Zgbc.load_rom (Zgbc.RomBytes data)) s in
  Zgbc.raised out = negb (fst r) /\
  (fst r = true -> fst out = inr tt) /\
  (fst r = false -> fst out = inl (RuntimeError "zgbc_load_rom() failed" None)) /\
  snd out = Zgbc.called s (Zgbc.Call_load_rom p (image data) (size data)) (snd r) /\
  Zgbc.attached (snd out) l h /\
  (forall data' : list Byte.byte,
      fst r = false ->
      fst (Zgbc.zgbc_load_rom l p (image data') (size data') (snd r)) = true ->
      fst (Zgbc.run (Zgbc.load_rom (Zgbc.RomBytes data')) (snd out)) = inr tt).
Proof.
  intros H p image size r out.
  assert (E : out =
              (if fst r then inr tt
               else inl (RuntimeError "zgbc_load_rom() failed" None),
               Zgbc.called s (Zgbc.Call_load_rom p (image data) (size data)) (snd r)))
    by (apply load_rom_run; exact H).
  rewrite E; cbn [fst snd]. repeat split.
  - unfold Zgbc.raised; cbn [fst]. destruct (fst r); reflexivity.
  - intros ->; reflexivity.
  - intros ->; reflexivity.
  - apply H.
  - apply H.
  - intros data' _ Hok.
    rewrite (load_rom_run _ l h data') by exact H.
    cbn [fst snd Zgbc.called Zgbc.world]. fold p. unfold image, size in Hok.
    now rewrite Hok.
Qed.

Lemma set_input_run s l h (buttons : Z) :
  Zgbc.attached s l h ->
  let p := Ctypes.c_void_p_param h in
  let mask := buttons mod 2 ^ 8 in
  Zgbc.run (Zgbc.set_input buttons) s =
  (inr tt, Zgbc.called s (Zgbc.Call_set_input p mask)
                       (Zgbc.zgbc_set_input l p mask (Zgbc.world s))).
Proof.
  intros H p mask. unfold Zgbc.set_input. call_native H. cbn [fst snd].
  rewrite land_0xFF. reflexivity.
Qed.

(** C6: for every integer [buttons], [set_input] makes exactly one native
    call and the mask it passes is [buttons mod 2^8], an 8-bit value; the
    constants of [Buttons] are the bits 0 to 7 in the order A, B, Select,
    Start, Right, Left, Up, Down. *)
Theorem set_input_passes_low_byte s l h (buttons : Z) :
  Zgbc.attached s l h ->
  let p := Ctypes.c_void_p_param h in
  let mask := buttons mod 2 ^ 8 in
  Zgbc.run (Zgbc.set_input buttons) s =
  (inr tt, Zgbc.called s (Zgbc.Call_set_input p mask)
                       (Zgbc.zgbc_set_input l p mask (Zgbc.world s))) /\
  0 <= mask < 2 ^ 8 /\
  (forall i, 0 <= i < 8 -> Z.testbit mask i = Z.testbit buttons i) /\
  [Zgbc.Buttons.A; Zgbc.Buttons.B; Zgbc.Buttons.SELECT; Zgbc.Buttons.START;
   Zgbc.Buttons.RIGHT; Zgbc.Buttons.LEFT; Zgbc.Buttons.UP; Zgbc.Buttons.DOWN]
  = map (fun i => 2 ^ i) [0; 1; 2; 3; 4; 5; 6; 7].
Proof.
  intros H p mask. repeat split.
  - apply set_input_run, H.
  - apply Z.mod_pos_bound; lia.
  - apply Z.mod_pos_bound; lia.
  - intros i Hi. unfold mask. apply Z.mod_pow2_bits_low. lia.
Qed.

Lemma set_headless_run s l h (graphics audio : bool) :
  Zgbc.attached s l h ->
  let p := Ctypes.c_void_p_param h in
  let w1 := Zgbc.zgbc_set_render_graphics l p graphics (Zgbc.world s) in
  let w2 := Zgbc.zgbc_set_render_audio l p audio w1 in
  Zgbc.run (Zgbc.set_headless graphics audio) s =
  (inr tt,
   Zgbc.called (Zgbc.called s (Zgbc.Call_set_render_graphics p graphics) w1)
               (Zgbc.Call_set_render_audio p audio) w2).
Proof.
  intros H p w1 w2. unfold Zgbc.set_headless.
  do 2 step H. unfold Zgbc.ffi_ at 1. rewrite run_bind, run_ffi. cbv beta iota.
  cbn [fst snd].
  assert (H' : Zgbc.attached
                 (Zgbc.called s (Zgbc.Call_set_render_graphics p graphics) w1) l h)
    by exact H.
  fold p w1. call_native H'. reflexivity.
Qed.

(** C8: [set_headless graphics audio] returns [None] after exactly two
    native calls on the stored handle, the graphics toggle with [graphics]
    and then the audio toggle with [audio]; the object's attributes and the
    rest of the process are left as they were. *)
Theorem set_headless_forwards_flags s l h (graphics audio : bool) :
  Zgbc.attached s l h ->
  let p := Ctypes.c_void_p_param h in
  let w1 := Zgbc.zgbc_set_render_graphics l p graphics (Zgbc.world s) in
  let w2 := Zgbc.zgbc_set_render_audio l p audio w1 in
  Zgbc.run (Zgbc.set_headless graphics audio) s =
  (inr tt,
   Zgbc.mkSt (Zgbc.os s) w2
     (Zgbc.log s ++ [Zgbc.Call_set_render_graphics p graphics;
                     Zgbc.Call_set_render_audio p audio])
     (Zgbc.self s)).
Proof.
  intros H p w1 w2. rewrite (set_headless_run s l h graphics audio H).
  unfold Zgbc.called; cbn [Zgbc.os Zgbc.world Zgbc.log Zgbc.self].
  rewrite <- app_assoc. reflexivity.
Qed.

(** *** Library lookup *)

Lemma try_names_step (name : string) (rest : list string) (last_err : option exn) s :
  Zgbc.run (Zgbc.try_names (name :: rest) last_err) s =
  match Zgbc.dlopen (Zgbc.os s) name with
  | Some l => (inr l, s)
  | None => Zgbc.run (Zgbc.try_names rest (Some (OSError name))) s
  end.
Proof.
  cbn [Zgbc.try_names]. rewrite run_except_OSError, run_CDLL_open.
  destruct (Zgbc.dlopen (Zgbc.os s) name); reflexivity.
Qed.

Lemma try_names_all_fail (names : list string) s :
  forall last_err : option exn,
    (forall n, In n names -> Zgbc.dlopen (Zgbc.os s) n = None) ->
    Zgbc.run (Zgbc.try_names names last_err) s =
    (inl (RuntimeError Zgbc.not_found
            match names with
            | [] => last_err
            | _ :: _ => Some (OSError (List.last names ""))
            end), s).
Proof.
  induction names as [| name rest IH]; intros last_err Hfail.
  - reflexivity.
  - rewrite try_names_step, (Hfail name) by (left; reflexivity).
    rewrite IH by (intros n Hn; apply Hfail; right; exact Hn).
    destruct rest; reflexivity.
Qed.

Lemma try_names_first_found (pre : list string) s :
  forall (last_err : option exn) (name : string) (post : list string) l,
    (forall n, In n pre -> Zgbc.dlopen (Zgbc.os s) n = None) ->
    Zgbc.dlopen (Zgbc.os s) name = Some l ->
    Zgbc.run (Zgbc.try_names (pre ++ name :: post) last_err) s = (inr l, s).
Proof.
  induction pre as [| n0 pre IH]; intros last_err name post l Hfail Hok.
  - cbn [app]. rewrite try_names_step, Hok. reflexivity.
  - cbn [app]. rewrite try_names_step, (Hfail n0) by (left; reflexivity).
    apply IH; [intros n Hn; apply Hfail; right; exact Hn | exact Hok].
Qed.

Lemma load_library_keeps_state (path : option string) s :
  snd (Zgbc.run (Zgbc.load_library path) s) = s.
Proof.
  destruct path as [p |]; cbn [Zgbc.load_library].
  - rewrite run_CDLL_open. reflexivity.
  - rewrite run_get_bind.
    assert (T : forall names last_err,
               snd (Zgbc.run (Zgbc.try_names names last_err) s) = s).
    { induction names as [| n rest IH]; intros last_err; [reflexivity |].
      rewrite try_names_step.
      destruct (Zgbc.dlopen (Zgbc.os s) n); [reflexivity | apply IH]. }
    destruct (Zgbc.environ (Zgbc.os s) "ZGBC_LIB") as [e |]; [| apply T].
    destruct (String.eqb e ""); [apply T |].
    rewrite run_CDLL_open. reflexivity.
Qed.

(** C9: [load_library] looks in a fixed order.  A path argument is opened
    and its outcome, success or [OSError], is the outcome of the call.
    Without one, a non-empty [ZGBC_LIB] is opened in the same way.
    Otherwise the default names of the platform are opened in order, the
    first that loads is returned, and when none loads the call raises
    [RuntimeError] whose cause is the [OSError] of the last name. *)
Theorem load_library_precedence s :
  let open name :=
    match Zgbc.dlopen (Zgbc.os s) name with
    | Some l => inr l
    | None => inl (OSError name)
    end in
  let env := Zgbc.environ (Zgbc.os s) "ZGBC_LIB" in
  let names := Zgbc._default_library_names (Zgbc.sys_platform (Zgbc.os s)) in
  (forall path : string,
      Zgbc.run (Zgbc.load_library (Some path)) s = (open path, s)) /\
  (forall env_path : string,
      env = Some env_path -> env_path <> "" ->
      Zgbc.run (Zgbc.load_library None) s = (open env_path, s)) /\
  (env = None \/ env = Some "" ->
   (forall pre name post l,
       names = pre ++ name :: post ->
       (forall n, In n pre -> Zgbc.dlopen (Zgbc.os s) n = None) ->
       Zgbc.dlopen (Zgbc.os s) name = Some l ->
       Zgbc.run (Zgbc.load_library None) s = (inr l, s)) /\
   ((forall n, In n names -> Zgbc.dlopen (Zgbc.os s) n = None) ->
    Zgbc.run (Zgbc.load_library None) s =
    (inl (RuntimeError Zgbc.not_found (Some (OSError (List.last names "")))), s))) /\
  names <> [].
Proof.
  intros open env names. split; [| split; [| split]].
  - intros path. cbn [Zgbc.load_library]. apply run_CDLL_open.
  - intros env_path He Hne. cbn [Zgbc.load_library]. rewrite run_get_bind.
    fold env. rewrite He.
    destruct (String.eqb_spec env_path "") as [E | _]; [contradiction |].
    apply run_CDLL_open.
  - intros He.
    assert (E : Zgbc.run (Zgbc.load_library None) s =
                Zgbc.run (Zgbc.try_names names None) s).
    { cbn [Zgbc.load_library]. rewrite run_get_bind. fold env names.
      destruct He as [-> | ->]; reflexivity. }
    rewrite E. split.
    + intros pre name post l -> Hfail Hok. now apply try_names_first_found.
    + intros Hfail. rewrite try_names_all_fail by exact Hfail.
      unfold names, Zgbc._default_library_names.
      destruct (String.prefix "win" _); [reflexivity |].
      destruct (String.eqb _ "darwin"); reflexivity.
  - unfold names, Zgbc._default_library_names.
    destruct (String.prefix "win" _); [discriminate |].
    destruct (String.eqb _ "darwin"); discriminate.
Qed.

(** *** Finalisation *)

Lemma del_run s :
  let handle :=
    match Zgbc._handle (Zgbc.self s) with Some v => v | None => None end in
  let p := Ctypes.c_void_p_param handle in
  let cleared := Zgbc.mkGameBoy (Zgbc._lib (Zgbc.self s)) (Some None) in
  Zgbc.run Zgbc.__del__ s =
  (inr tt,
   match Zgbc._lib (Zgbc.self s) with
   | Some l =>
       if Ctypes.truthy handle
       then Zgbc.mkSt (Zgbc.os s) (Zgbc.zgbc_free l p (Zgbc.world s))
                      (Zgbc.log s ++ [Zgbc.Call_free p]) cleared
       else Zgbc.mkSt (Zgbc.os s) (Zgbc.world s) (Zgbc.log s) cleared
   | None => Zgbc.mkSt (Zgbc.os s) (Zgbc.world s) (Zgbc.log s) cleared
   end).
Proof.
  intros handle p cleared. unfold Zgbc.run, Zgbc.__del__; cbn.
  fold handle. destruct (Ctypes.truthy handle); cbn.
  - destruct (Zgbc._lib (Zgbc.self s)); reflexivity.
  - destruct (Zgbc._lib (Zgbc.self s)); reflexivity.
Qed.

Lemma del_cleared_noop s :
  Zgbc._handle (Zgbc.self s) = Some None ->
  Zgbc.run Zgbc.__del__ s = (inr tt, s).
Proof.
  intros H. rewrite del_run, H. cbn [Ctypes.truthy].
  destruct s as [o w lg [lb hd]]; cbn in *. subst hd.
  destruct lb; reflexivity.
Qed.

Lemma del_clears s :
  Zgbc._handle (Zgbc.self (snd (Zgbc.run Zgbc.__del__ s))) = Some None.
Proof.
  rewrite del_run; cbn [snd].
  destruct (Zgbc._lib (Zgbc.self s)); [destruct (Ctypes.truthy _) |]; reflexivity.
Qed.

Lemma del_frees_le s :
  (Zgbc.frees (snd (Zgbc.run Zgbc.__del__ s)) <= Zgbc.frees s + 1)%nat.
Proof.
  rewrite del_run; cbn [snd]. unfold Zgbc.frees.
  destruct (Zgbc._lib (Zgbc.self s)); [destruct (Ctypes.truthy _) |];
    cbn [Zgbc.log]; try lia.
  rewrite filter_app, length_app. cbn. lia.
Qed.

Lemma times_noop (m : Zgbc.Py W unit) s (n : nat) :
  Zgbc.run m s = (inr tt, s) -> Zgbc.run (Zgbc.times n m) s = (inr tt, s).
Proof.
  intros H. induction n as [| n IH]; [reflexivity |].
  cbn [Zgbc.times]. rewrite run_bind, H. exact IH.
Qed.

(** C10: however often [__del__] runs on an object, it never raises and
    [zgbc_free] is called at most once in total; the first run leaves
    [None] in [_handle] (whether or not the free call could be made), and
    from then on [__del__] changes nothing.  When the handle was never
    assigned, or is [None], no native call is made at all. *)
Theorem del_frees_at_most_once s (n : nat) :
  let out := Zgbc.run (Zgbc.times n Zgbc.__del__) s in
  let s1 := snd (Zgbc.run Zgbc.__del__ s) in
  fst out = inr tt /\
  (Zgbc.frees (snd out) <= Zgbc.frees s + 1)%nat /\
  Zgbc._handle (Zgbc.self s1) = Some None /\
  Zgbc.run Zgbc.__del__ s1 = (inr tt, s1) /\
  (Zgbc._handle (Zgbc.self s) = None \/ Zgbc._handle (Zgbc.self s) = Some None ->
   Zgbc.log (snd out) = Zgbc.log s).
Proof.
  intros out s1.
  assert (Hs1 : Zgbc.run Zgbc.__del__ s = (inr tt, s1)).
  { unfold s1. rewrite del_run. reflexivity. }
  assert (Hc : Zgbc._handle (Zgbc.self s1) = Some None) by apply del_clears.
  assert (Hout : n = O /\ out = (inr tt, s) \/ out = (inr tt, s1)).
  { unfold out. destruct n as [| n]; [left; split; reflexivity | right].
    cbn [Zgbc.times]. rewrite run_bind, Hs1.
    apply times_noop, del_cleared_noop, Hc. }
  repeat split.
  - destruct Hout as [[_ ->] | ->]; reflexivity.
  - destruct Hout as [[_ ->] | ->]; cbn [snd]; [lia | apply del_frees_le].
  - exact Hc.
  - apply del_cleared_noop, Hc.
  - intros Hnone.
    destruct Hout as [[_ ->] | ->]; cbn [snd]; [reflexivity |].
    unfold s1. rewrite del_run; cbn [snd].
    destruct Hnone as [-> | ->]; cbn [Ctypes.truthy];
      destruct (Zgbc._lib (Zgbc.self s)); reflexivity.
Qed.

(** *** Construction *)

Lemma construct_run (rom : option Zgbc.rom_arg) (lib : option (Zgbc.CDLL W)) s :
  Zgbc.run (Zgbc.construct rom lib) s = Zgbc.run (Zgbc.__init__ rom lib) (Zgbc.fresh s).
Proof.
  unfold Zgbc.construct. rewrite run_get_bind, run_bind.
  reflexivity.
Qed.

Lemma init_run (rom : option Zgbc.rom_arg) l s :
  let p := fst (Zgbc.zgbc_new l (Zgbc.world s)) in
  let w1 := snd (Zgbc.zgbc_new l (Zgbc.world s)) in
  let created handle :=
    Zgbc.mkSt (Zgbc.os s) w1 (Zgbc.log s ++ [Zgbc.Call_new])
              (Zgbc.mkGameBoy (Some l) (Some handle)) in
  Zgbc.run (Zgbc.__init__ rom (Some l)) s =
  if p =? 0
  then (inl (RuntimeError "zgbc_new() returned NULL" None), created None)
  else match rom with
       | Some r => Zgbc.run (Zgbc.load_rom r) (created (Some p))
       | None => (inr tt, created (Some p))
       end.
Proof.
  intros p w1 created. unfold Zgbc.__init__.
  rewrite run_bind, run_ret. cbv beta iota.
  rewrite run_get_bind, run_bind, run_set_self. cbv beta iota.
  rewrite run_bind.
  rewrite (run_get_lib _ _ l) by reflexivity.
  cbv beta iota. rewrite run_bind, run_ffi. cbv beta iota.
  rewrite run_get_bind, run_bind, run_set_self. cbv beta iota.
  cbn [Zgbc.called Zgbc.os Zgbc.world Zgbc.log Zgbc.self Zgbc._lib].
  fold p w1. rewrite run_bind.
  rewrite (run_get_handle _ _ (Ctypes.c_void_p_restype p)) by reflexivity.
  cbv beta iota. unfold Ctypes.c_void_p_restype.
  destruct (p =? 0) eqn:E; cbn [Ctypes.truthy negb].
  - reflexivity.
  - rewrite E. cbn [negb]. destruct rom; reflexivity.
Qed.

(** C7 (as the code has it): with the library resolved, construction makes
    the native create call first.  A null handle makes it raise, with
    [None] left in [_handle].  A non-null handle is stored; without a ROM
    argument construction then returns, [zgbc_new] being the only native
    call made; with a ROM argument construction ends as [load_rom] on that
    argument ends, so it raises exactly when create returned null or that
    [load_rom] raises.  Without a [lib] argument the outcome of
    [load_library] comes first: its exception leaves the object without
    attributes and no native call is made. *)
Theorem construct_outcome (rom : option Zgbc.rom_arg) l s :
  let p := fst (Zgbc.zgbc_new l (Zgbc.world s)) in
  let w1 := snd (Zgbc.zgbc_new l (Zgbc.world s)) in
  let created handle :=
    Zgbc.mkSt (Zgbc.os s) w1 (Zgbc.log s ++ [Zgbc.Call_new])
              (Zgbc.mkGameBoy (Some l) (Some handle)) in
  let out := Zgbc.run (Zgbc.construct rom (Some l)) s in
  (p = 0 ->
   out = (inl (RuntimeError "zgbc_new() returned NULL" None), created None)) /\
  (p <> 0 -> rom = None -> out = (inr tt, created (Some p))) /\
  (p <> 0 -> forall r, rom = Some r ->
             out = Zgbc.run (Zgbc.load_rom r) (created (Some p))) /\
  (Zgbc.raised out = true <->
   p = 0 \/
   exists r, rom = Some r /\
             Zgbc.raised (Zgbc.run (Zgbc.load_rom r) (created (Some p))) = true) /\
  (forall e, fst (Zgbc.run (Zgbc.load_library None) (Zgbc.fresh s)) = inl e ->
             Zgbc.run (Zgbc.construct rom None) s = (inl e, Zgbc.fresh s)) /\
  (fst (Zgbc.run (Zgbc.load_library None) (Zgbc.fresh s)) = inr l ->
   Zgbc.run (Zgbc.construct rom None) s = out).
Proof.
  intros p w1 created out.
  assert (E : out =
              if p =? 0
              then (inl (RuntimeError "zgbc_new() returned NULL" None), created None)
              else match rom with
                   | Some r => Zgbc.run (Zgbc.load_rom r) (created (Some p))
                   | None => (inr tt, created (Some p))
                   end).
  { unfold out. rewrite construct_run. apply (init_run rom l (Zgbc.fresh s)). }
  assert (L :
             Zgbc.run (Zgbc.construct rom None) s =
             match Zgbc.run (Zgbc.load_library None) (Zgbc.fresh s) with
             | (inl e, s') => (inl e, s')
             | (inr l', s') => Zgbc.run (Zgbc.__init__ rom (Some l')) s'
             end).
  { rewrite construct_run. unfold Zgbc.__init__ at 1.
    rewrite run_bind.
    destruct (Zgbc.run (Zgbc.load_library None) (Zgbc.fresh s)) as [[e | l'] s'];
      [reflexivity |].
    symmetry. unfold Zgbc.__init__. rewrite run_bind. reflexivity. }
  pose proof (load_library_keeps_state None (Zgbc.fresh s)) as K.
  split; [| split; [| split; [| split; [| split]]]].
  - intros Hp. rewrite E, Hp. reflexivity.
  - intros Hp ->. rewrite E. apply Z.eqb_neq in Hp. now rewrite Hp.
  - intros Hp r ->. rewrite E. apply Z.eqb_neq in Hp. now rewrite Hp.
  - rewrite E. destruct (Z.eqb_spec p 0) as [Hp | Hp].
    + split; [intros _; left; exact Hp | reflexivity].
    + destruct rom as [r |].
      * split; [intros H; right; exists r; split; [reflexivity | exact H] |].
        intros [Hp' | [r' [Hr H]]]; [contradiction |].
        injection Hr as <-. exact H.
      * split; [discriminate |].
        intros [Hp' | [r' [Hr _]]]; [contradiction | discriminate].
  - intros e He. rewrite L.
    destruct (Zgbc.run (Zgbc.load_library None) (Zgbc.fresh s)) as [[e' | l'] s'];
      cbn [fst snd] in *; [| discriminate].
    injection He as ->. subst s'. reflexivity.
  - intros Hl. rewrite L. unfold out. rewrite construct_run.
    destruct (Zgbc.run (Zgbc.load_library None) (Zgbc.fresh s)) as [[e' | l'] s'];
      cbn [fst snd] in *; [discriminate |].
    injection Hl as ->. subst s'. reflexivity.
Qed.

(** *** Output buffers *)

(** C4: [get_frame_rgba] makes one native read into a new zeroed buffer of
    160 x 144 32-bit elements and returns a view of unsigned bytes over it:
    92160 bytes, in which the four bytes at offset 4 * (y * 160 + x) are
    the little-endian image of the pixel the native call stored at row [y],
    column [x]. *)
Theorem get_frame_rgba_view s l h :
  Zgbc.attached s l h ->
  let p := Ctypes.c_void_p_param h in
  let r := Zgbc.zgbc_get_frame_rgba l p (Zgbc.world s) in
  let pixels := Z.to_nat (Zgbc.FRAME_WIDTH * Zgbc.FRAME_HEIGHT) in
  exists view,
    Zgbc.run Zgbc.get_frame_rgba s =
    (inr view, Zgbc.called s (Zgbc.Call_get_frame_rgba p pixels) (snd r)) /\
    Ctypes.format view = "B" /\
    Ctypes.itemsize view = 1 /\
    Z.of_nat (List.length (Ctypes.view_bytes view)) = 92160 /\
    Ctypes.view_len view = Zgbc.FRAME_WIDTH * Zgbc.FRAME_HEIGHT * 4 /\
    forall x y, 0 <= x < Zgbc.FRAME_WIDTH -> 0 <= y < Zgbc.FRAME_HEIGHT ->
      let i := Z.to_nat (y * Zgbc.FRAME_WIDTH + x) in
      Ctypes.le_value (firstn 4 (skipn (4 * i) (Ctypes.view_bytes view)))
      = Ctypes.c_uint32 (nth i (fst r) 0).
Proof.
  intros H p r pixels.
  set (buf := Ctypes.mkArray Ctypes.c_uint32_t (repeat 0 pixels)).
  set (filled := Ctypes.fill buf (fst r)).
  exists (Ctypes.mkView "B" 1 (Ctypes.raw_bytes filled)).
  assert (Hlen : Z.of_nat (List.length (Ctypes.raw_bytes filled)) = 92160).
  { rewrite length_raw_bytes. unfold filled. rewrite length_fill.
    change (Ctypes.elt (Ctypes.fill buf (fst r))) with Ctypes.c_uint32_t.
    unfold buf; cbn [Ctypes.elems Ctypes.elt Ctypes.sizeof].
    rewrite repeat_length. unfold pixels, Zgbc.FRAME_WIDTH, Zgbc.FRAME_HEIGHT.
    lia. }
  split; [| split; [| split; [| split; [| split]]]].
  - unfold Zgbc.get_frame_rgba.
    rewrite new_array_ok by (unfold Zgbc.FRAME_WIDTH, Zgbc.FRAME_HEIGHT; lia).
    fold pixels buf. rewrite run_bind, run_lift_result. cbv beta iota.
    do 2 step H. rewrite run_bind, run_ffi. cbv beta iota.
    fold p r filled. rewrite cast_to_bytes, run_lift_result.
    unfold buf at 1; cbn [Ctypes.elems]. rewrite repeat_length. reflexivity.
  - reflexivity.
  - reflexivity.
  - exact Hlen.
  - unfold Ctypes.view_len; cbn [Ctypes.view_bytes Ctypes.itemsize].
    rewrite Hlen. reflexivity.
  - intros x y Hx Hy i. cbn [Ctypes.view_bytes].
    assert (Hi : (i < pixels)%nat).
    { unfold i, pixels, Zgbc.FRAME_WIDTH, Zgbc.FRAME_HEIGHT in *. lia. }
    unfold Ctypes.raw_bytes. unfold filled at 1.
    change (Z.to_nat (Ctypes.sizeof (Ctypes.elt (Ctypes.fill buf (fst r)))))
      with 4%nat.
    rewrite (raw_chunk 4 _ i 0) by (fold filled; unfold filled;
                                    rewrite length_fill; unfold buf;
                                    cbn [Ctypes.elems];
                                    rewrite repeat_length; exact Hi).
    rewrite le_value_le_bytes. fold filled. unfold filled, buf.
    rewrite nth_fill_zeroed by exact Hi.
    cbn [Ctypes.store]. unfold Ctypes.c_uint32.
    change (256 ^ Z.of_nat 4) with (2 ^ 32). apply Z.mod_mod. lia.
Qed.

(** C1 (what the code does): for every capacity [max_samples >= 0],
    [get_audio_samples] makes the native read into a new buffer and then
    raises [TypeError], because the view of a ctypes [int16] array has the
    format ["<h"], which [cast] accepts only towards a byte format. *)
Theorem get_audio_samples_raises s l h (max_samples : Z) :
  Zgbc.attached s l h ->
  0 <= max_samples ->
  let p := Ctypes.c_void_p_param h in
  let cap := Ctypes.c_size_t max_samples in
  let r := Zgbc.zgbc_get_audio_samples l p cap (Zgbc.world s) in
  Zgbc.run (Zgbc.get_audio_samples max_samples) s =
  (inl (TypeError "memoryview: cannot cast between two non-byte formats"),
   Zgbc.called s (Zgbc.Call_get_audio_samples p (Z.to_nat max_samples) cap)
               (snd r)).
Proof.
  intros H Hm p cap r. unfold Zgbc.get_audio_samples.
  rewrite new_array_ok by exact Hm.
  rewrite run_bind, run_lift_result. cbv beta iota.
  do 2 step H. rewrite run_bind, run_ffi. cbv beta iota.
  fold p cap r. rewrite cast_h_from_ctypes by reflexivity.
  rewrite run_lift_result.
  cbn [Ctypes.elems]. rewrite repeat_length. reflexivity.
Qed.

End MethodFacts.

(** * The binding over the modelled core *)

Section CoreFacts.

Variable ticks_per_frame : Z.
Variable boot_image : list Z.
Variable valid_image : list Z -> bool.
Variable queue_limit : nat.
Variable render : Core.gb -> list Z.
Variable synth : Core.gb -> list Z.

Local Abbreviation libzgbc :=
  (Core.lib ticks_per_frame valid_image queue_limit render synth).
Local Abbreviation advance :=
  (Core.advance ticks_per_frame queue_limit render synth).
Local Abbreviation owns :=
  (Core.owns ticks_per_frame valid_image queue_limit render synth).

Implicit Types (s : Zgbc.St Core.world) (g : Core.gb).

Lemma owns_param s h g : owns s h g -> Ctypes.c_void_p_param (Some h) = h.
Proof. intros (_ & Hh & _). cbn. apply Z.mod_small. lia. Qed.

Lemma heap_update_same (w : Core.world) (h : Z) g :
  Core.heap (Core.update h g w) h = Some g.
Proof. cbn. now rewrite Z.eqb_refl. Qed.

Lemma frame_on_core s h g :
  owns s h g ->
  Zgbc.run Zgbc.frame s =
  (inr tt, Zgbc.called s (Zgbc.Call_frame h)
                       (Core.update h (advance g) (Zgbc.world s))) /\
  owns (Zgbc.called s (Zgbc.Call_frame h)
                    (Core.update h (advance g) (Zgbc.world s)))
       h (advance g).
Proof.
  intros Ho. pose proof Ho as (Ha & Hh & Hg). split.
  - rewrite (frame_run _ _ _ _ Ha), (owns_param _ _ _ Ho).
    cbn [Zgbc.zgbc_frame Core.lib]. unfold Core.on_instance. now rewrite Hg.
  - split; [exact Ha | split; [exact Hh |]]. apply heap_update_same.
Qed.

Lemma frames_on_core (n : nat) :
  forall s h g,
    owns s h g ->
    exists s' g',
      Zgbc.run (Zgbc.times n Zgbc.frame) s = (inr tt, s') /\
      owns s' h g' /\
      Core.cycles g' = Core.cycles g + Z.of_nat n * ticks_per_frame /\
      Core.cart g' = Core.cart g /\
      Zgbc.frames s' = (Zgbc.frames s + n)%nat.
Proof.
  induction n as [| n IH]; intros s h g Ho.
  - exists s, g. repeat split; try apply Ho; cbn; lia.
  - destruct (frame_on_core s h g Ho) as [Hrun Ho1].
    destruct (IH _ h _ Ho1) as (s' & g' & Hrun' & Ho' & Hc & Hk & Hf).
    exists s', g'. split; [| split; [exact Ho' | split; [| split]]].
    + cbn [Zgbc.times]. rewrite run_bind, Hrun. exact Hrun'.
    + rewrite Hc. cbn [Core.advance Core.cycles]. lia.
    + rewrite Hk. reflexivity.
    + rewrite Hf. unfold Zgbc.frames, Zgbc.called; cbn [Zgbc.log].
      rewrite filter_app, length_app. cbn. lia.
Qed.

(** C3 (against the modelled core): after a load that the core accepts,
    [N] calls of [frame] all return [None], make [N] native frame calls
    and leave the instance's tick counter exactly [N * ticks_per_frame]
    above its value after the load. *)
Theorem frames_consume_fixed_ticks s (h : Z) g (data : list Byte.byte) (N : nat) :
  owns s h g ->
  valid_image (Ctypes.elems (Ctypes.from_buffer_copy data)) = true ->
  exists s1 s2,
    Zgbc.run (Zgbc.load_rom (Zgbc.RomBytes data)) s = (inr tt, s1) /\
    Zgbc.run (Zgbc.times N Zgbc.frame) s1 = (inr tt, s2) /\
    (forall k, (k <= N)%nat ->
       exists sk, Zgbc.run (Zgbc.times k Zgbc.frame) s1 = (inr tt, sk) /\
                  Core.elapsed (Zgbc.world sk) h
                  = option_map (fun t => t + Z.of_nat k * ticks_per_frame)
                               (Core.elapsed (Zgbc.world s1) h)) /\
    Core.elapsed (Zgbc.world s1) h = Some (Core.cycles g) /\
    Core.elapsed (Zgbc.world s2) h
    = Some (Core.cycles g + Z.of_nat N * ticks_per_frame) /\
    Zgbc.frames s2 = (Zgbc.frames s + N)%nat.
Proof.
  intros Ho Hv. pose proof Ho as (Ha & Hh & Hg).
  pose proof (load_rom_run _ s _ _ data Ha) as Hload.
  rewrite (owns_param _ _ _ Ho) in Hload.
  cbn [Zgbc.zgbc_load_rom Core.lib] in Hload. unfold Core.load in Hload.
  rewrite Hg, Hv in Hload. cbn [fst snd] in Hload.
  set (g1 := Core.mkGb (Core.cycles g)
                      (Ctypes.elems (Ctypes.from_buffer_copy data))
                      (Core.boot_off g) (Core.buttons g)
                      (Core.render_graphics g) (Core.render_audio g)
                      (Core.frame_buffer g) (Core.audio_queue g)) in *.
  match type of Hload with _ = (_, ?st) => set (s1 := st) in * end.
  assert (Ho1 : owns s1 h g1).
  { split; [exact Ha | split; [exact Hh |]]. apply heap_update_same. }
  assert (He1 : Core.elapsed (Zgbc.world s1) h = Some (Core.cycles g)).
  { unfold Core.elapsed. destruct Ho1 as (_ & _ & ->). reflexivity. }
  destruct (frames_on_core N s1 h g1 Ho1) as (s2 & g2 & Hrun & Ho2 & Hc & _ & Hf).
  exists s1, s2. split; [exact Hload | split; [exact Hrun |]].
  split; [| split; [exact He1 | split]].
  - intros k _.
    destruct (frames_on_core k s1 h g1 Ho1) as (sk & gk & Hk & Hok & Hck & _).
    exists sk. split; [exact Hk |]. rewrite He1.
    unfold Core.elapsed. destruct Hok as (_ & _ & ->). cbn. now rewrite Hck.
  - unfold Core.elapsed. destruct Ho2 as (_ & _ & ->). cbn. now rewrite Hc.
  - rewrite Hf. unfold s1, Zgbc.frames, Zgbc.called; cbn [Zgbc.log].
    rewrite filter_app, length_app. cbn. lia.
Qed.

(** C5 (against the modelled core): [skip_boot] returns [None] after
    exactly one native call, the raw write of 1 to 0xFF50 on the stored
    handle, so the native side is left as by that bus write; afterwards
    the low addresses 0x0000-0x00FF, 0x0000 among them, read the
    cartridge image and not the boot image. *)
Theorem skip_boot_is_one_write s (h : Z) g :
  owns s h g ->
  exists s' g',
    Zgbc.run Zgbc.skip_boot s = (inr tt, s') /\
    Zgbc.log s' = Zgbc.log s ++ [Zgbc.Call_write h 0xFF50 1] /\
    Zgbc.world s' = Core.on_instance h (Core.bus_write 0xFF50 1) (Zgbc.world s) /\
    Zgbc.self s' = Zgbc.self s /\
    Core.heap (Zgbc.world s') h = Some g' /\
    Core.boot_off g' = true /\
    Core.cart g' = Core.cart g /\
    Core.bus_read_low boot_image g' 0 = nth 0 (Core.cart g) 0 /\
    forall addr, 0 <= addr <= 0xFF ->
      Core.bus_read_low boot_image g' addr = nth (Z.to_nat addr) (Core.cart g) 0.
Proof.
  intros Ho. pose proof Ho as (Ha & Hh & Hg).
  pose proof (skip_boot_run _ s _ _ Ha) as Hrun.
  rewrite (owns_param _ _ _ Ho) in Hrun. cbn [Zgbc.zgbc_write Core.lib] in Hrun.
  eexists. exists (Core.bus_write 0xFF50 1 g).
  split; [exact Hrun |]. cbn [Zgbc.called Zgbc.log Zgbc.world Zgbc.self].
  repeat split.
  unfold Core.on_instance. rewrite Hg. apply heap_update_same.
Qed.

(** In the modelled core the two toggles of [set_headless] change the two
    render flags of the instance and nothing else. *)
Lemma set_headless_on_core s (h : Z) g (graphics audio : bool) :
  owns s h g ->
  exists s',
    Zgbc.run (Zgbc.set_headless graphics audio) s = (inr tt, s') /\
    Core.heap (Zgbc.world s') h
    = Some (Core.mkGb (Core.cycles g) (Core.cart g) (Core.boot_off g)
                      (Core.buttons g) graphics audio
                      (Core.frame_buffer g) (Core.audio_queue g)) /\
    forall k, k <> h -> Core.heap (Zgbc.world s') k = Core.heap (Zgbc.world s) k.
Proof.
  intros Ho. pose proof Ho as (Ha & Hh & Hg).
  pose proof (set_headless_run _ s _ _ graphics audio Ha) as Hrun.
  rewrite (owns_param _ _ _ Ho) in Hrun.
  eexists. split; [exact Hrun |]. cbn [Zgbc.world Zgbc.called].
  cbn [Zgbc.zgbc_set_render_graphics Zgbc.zgbc_set_render_audio Core.lib].
  unfold Core.on_instance. rewrite Hg, heap_update_same. split.
  - rewrite heap_update_same. reflexivity.
  - intros k Hk. cbn [Core.update Core.heap]. apply Z.eqb_neq in Hk.
    now rewrite Hk.
Qed.

(** In the modelled core the mask passed by [set_input] is the latched
    button state. *)
Lemma set_input_on_core s (h : Z) g (buttons : Z) :
  owns s h g ->
  exists s',
    Zgbc.run (Zgbc.set_input buttons) s = (inr tt, s') /\
    option_map Core.buttons (Core.heap (Zgbc.world s') h) = Some (buttons mod 2 ^ 8).
Proof.
  intros Ho. pose proof Ho as (Ha & Hh & Hg).
  pose proof (set_input_run _ s _ _ buttons Ha) as Hrun.
  rewrite (owns_param _ _ _ Ho) in Hrun.
  eexists. split; [exact Hrun |]. cbn [Zgbc.called Zgbc.world].
  cbn [Zgbc.zgbc_set_input Core.lib]. unfold Core.on_instance. rewrite Hg.
  rewrite heap_update_same. reflexivity.
Qed.

End CoreFacts.

(** * Further properties of the binding *)

Section UseFacts.

Variable W : Type.
Implicit Types (s : Zgbc.St W) (l : Zgbc.CDLL W) (h : option Z).

(** *** Loading from a path *)

Lemma load_rom_path_run (path : string) s :
  Zgbc.run (Zgbc.load_rom (Zgbc.RomPath path)) s =
  match Zgbc.read_bytes (Zgbc.os s) path with
  | Some data => Zgbc.run (Zgbc.load_rom (Zgbc.RomBytes data)) s
  | None => (inl (OSError path), s)
  end.
Proof.
  unfold Zgbc.load_rom. rewrite run_bind, run_get_bind.
  destruct (Zgbc.read_bytes (Zgbc.os s) path) as [data |]; [| reflexivity].
  rewrite run_ret. symmetry. rewrite run_bind, run_ret. reflexivity.
Qed.

(** A path that cannot be read makes [load_rom] raise [OSError] before the
    library is touched: no native call, process state unchanged. *)
Theorem load_rom_unreadable_path (path : string) s :
  Zgbc.read_bytes (Zgbc.os s) path = None ->
  Zgbc.run (Zgbc.load_rom (Zgbc.RomPath path)) s = (inl (OSError path), s).
Proof. intros H. rewrite load_rom_path_run, H. reflexivity. Qed.

(** Loading from a readable path is loading the bytes of the file: the
    image read is handed to the library in one native call, and the call
    raises [RuntimeError] exactly when the library rejects it. *)
Theorem load_rom_path_as_bytes (path : string) (data : list Byte.byte) s l h :
  Zgbc.attached s l h ->
  Zgbc.read_bytes (Zgbc.os s) path = Some data ->
  let p := Ctypes.c_void_p_param h in
  let image := Ctypes.elems (Ctypes.from_buffer_copy data) in
  let len := Ctypes.c_size_t (Z.of_nat (List.length data)) in
  let r := Zgbc.zgbc_load_rom l p image len (Zgbc.world s) in
  Zgbc.run (Zgbc.load_rom (Zgbc.RomPath path)) s
  = Zgbc.run (Zgbc.load_rom (Zgbc.RomBytes data)) s /\
  Zgbc.run (Zgbc.load_rom (Zgbc.RomPath path)) s
  = (if fst r then inr tt else inl (RuntimeError "zgbc_load_rom() failed" None),
     Zgbc.called s (Zgbc.Call_load_rom p image len) (snd r)).
Proof.
  intros H Hread p image len r. rewrite load_rom_path_run, Hread.
  split; [reflexivity |]. apply (load_rom_run _ s l h data H).
Qed.

(** *** What the loader is handed *)

Lemma buffer_decodes (data : list Byte.byte) :
  map (fun v => Byte.of_N (Z.to_N v))
      (Ctypes.elems (Ctypes.from_buffer_copy data))
  = map Some data.
Proof.
  unfold Ctypes.from_buffer_copy; cbn [Ctypes.elems].
  rewrite map_map. apply map_ext. intros b.
  rewrite N2Z.id. apply Byte.of_to_N.
Qed.

Lemma buffer_in_range (data : list Byte.byte) :
  Forall (fun v => 0 <= v < 256) (Ctypes.elems (Ctypes.from_buffer_copy data)).
Proof.
  unfold Ctypes.from_buffer_copy; cbn [Ctypes.elems].
  apply Forall_map, Forall_forall. intros b _.
  pose proof (Byte.to_N_bounded b). lia.
Qed.

(** The image arrives unchanged: for an image shorter than [2^64] bytes the
    one native call of [load_rom] carries the stored handle, a buffer of
    as many elements as the image has bytes, each in [0, 255] and together
    decoding to the image, and the image's length. *)
Theorem load_rom_passes_image s l h (data : list Byte.byte) :
  Zgbc.attached s l h ->
  Z.of_nat (List.length data) < 2 ^ 64 ->
  exists buf,
    Zgbc.log (snd (Zgbc.run (Zgbc.load_rom (Zgbc.RomBytes data)) s))
    = Zgbc.log s ++ [Zgbc.Call_load_rom (Ctypes.c_void_p_param h) buf
                                         (Z.of_nat (List.length data))] /\
    List.length buf = List.length data /\
    Forall (fun v => 0 <= v < 256) buf /\
    map (fun v => Byte.of_N (Z.to_N v)) buf = map Some data.
Proof.
  intros H Hlen. exists (Ctypes.elems (Ctypes.from_buffer_copy data)).
  rewrite (load_rom_run _ s l h data H). cbn [snd Zgbc.called Zgbc.log].
  unfold Ctypes.c_size_t. rewrite Z.mod_small by lia.
  split; [reflexivity | split; [| split]].
  - unfold Ctypes.from_buffer_copy; cbn [Ctypes.elems]. apply length_map.
  - apply buffer_in_range.
  - apply buffer_decodes.
Qed.

(** *** Audio read-out *)

Lemma get_audio_samples_negative_run (max_samples : Z) s :
  max_samples < 0 ->
  Zgbc.run (Zgbc.get_audio_samples max_samples) s
  = (inl (ValueError "Array length must be >= 0"), s).
Proof.
  intros H. unfold Zgbc.get_audio_samples, Ctypes.new_array.
  destruct (Z.ltb_spec max_samples 0); [| lia].
  rewrite run_bind, run_lift_result. reflexivity.
Qed.

(** A negative capacity is refused when the buffer is created: the call
    raises [ValueError] before the library is touched, so the process
    state is unchanged and no queued sample is consumed. *)
Theorem get_audio_samples_negative (max_samples : Z) s :
  max_samples < 0 ->
  Zgbc.run (Zgbc.get_audio_samples max_samples) s
  = (inl (ValueError "Array length must be >= 0"), s) /\
  Zgbc.log (snd (Zgbc.run (Zgbc.get_audio_samples max_samples) s)) = Zgbc.log s.
Proof.
  intros H. rewrite get_audio_samples_negative_run by exact H.
  split; reflexivity.
Qed.

Lemma get_audio_samples_run s l h (max_samples : Z) :
  Zgbc.attached s l h ->
  0 <= max_samples ->
  let p := Ctypes.c_void_p_param h in
  let cap := Ctypes.c_size_t max_samples in
  Zgbc.run (Zgbc.get_audio_samples max_samples) s =
  (inl (TypeError "memoryview: cannot cast between two non-byte formats"),
   Zgbc.called s (Zgbc.Call_get_audio_samples p (Z.to_nat max_samples) cap)
               (snd (Zgbc.zgbc_get_audio_samples l p cap (Zgbc.world s)))).
Proof.
  intros H Hm p cap. unfold Zgbc.get_audio_samples.
  rewrite new_array_ok by exact Hm.
  rewrite run_bind, run_lift_result. cbv beta iota.
  do 2 step H. rewrite run_bind, run_ffi. cbv beta iota.
  fold p cap. rewrite cast_h_from_ctypes by reflexivity.
  rewrite run_lift_result.
  cbn [Ctypes.elems]. rewrite repeat_length. reflexivity.
Qed.



(** *** Button masks *)

Lemma button_is_bit (b : Z) :
  In b Zgbc.all_buttons -> exists k, 0 <= k < 8 /\ b = 2 ^ k.
Proof.
  intros H. cbn in H.
  destruct H as [<- | [<- | [<- | [<- | [<- | [<- | [<- | [<- | []]]]]]]]];
    [exists 0 | exists 1 | exists 2 | exists 3
     | exists 4 | exists 5 | exists 6 | exists 7];
    (split; [lia | reflexivity]).
Qed.

Lemma pressed_mask_bit (pressed : list Z) (i : Z) :
  Forall (fun b => In b Zgbc.all_buttons) pressed ->
  Z.testbit (Zgbc.pressed_mask pressed) i = true <-> In (2 ^ i) pressed /\ 0 <= i < 8.
Proof.
  intros Hall. induction Hall as [| b rest Hb _ IH].
  - cbn. rewrite Z.bits_0. split; [discriminate | intros [[] _]].
  - cbn [Zgbc.pressed_mask fold_right]. fold (Zgbc.pressed_mask rest).
    rewrite Z.lor_spec, orb_true_iff, IH.
    destruct (button_is_bit b Hb) as (k & Hk & ->).
    rewrite Z.pow2_bits_eqb by lia. rewrite Z.eqb_eq. split.
    + intros [<- | [Hin Hi]]; (split; [| lia]); [left; reflexivity | right; exact Hin].
    + intros [[E | Hin] Hi]; [left | right; split; assumption].
      apply (Z.pow_inj_r 2); lia.
Qed.

Lemma pressed_mask_fits (pressed : list Z) :
  Forall (fun b => In b Zgbc.all_buttons) pressed ->
  Zgbc.pressed_mask pressed mod 2 ^ 8 = Zgbc.pressed_mask pressed.
Proof.
  intros Hall. apply Z.bits_inj'. intros i Hi.
  rewrite Z.testbit_mod_pow2 by lia.
  destruct (Z.ltb_spec i 8) as [Hlt | Hge]; [reflexivity |].
  cbn [andb]. symmetry. apply not_true_is_false.
  rewrite (pressed_mask_bit pressed i Hall). intros [_ Hr]. lia.
Qed.

(** Any combination of [Buttons] constants, built with [|], reaches the
    core as it is, and the core can read back which buttons are held: bit
    [i] of the mask passed is set exactly when the constant [1 << i] is
    among them. *)
Theorem set_input_passes_pressed_buttons s l h (pressed : list Z) :
  Zgbc.attached s l h ->
  Forall (fun b => In b Zgbc.all_buttons) pressed ->
  let p := Ctypes.c_void_p_param h in
  let mask := Zgbc.pressed_mask pressed in
  Zgbc.run (Zgbc.set_input mask) s =
  (inr tt, Zgbc.called s (Zgbc.Call_set_input p mask)
                       (Zgbc.zgbc_set_input l p mask (Zgbc.world s))) /\
  forall i, Z.testbit mask i = true <-> In (Z.shiftl 1 i) pressed /\ 0 <= i < 8.
Proof.
  intros H Hall p mask. split.
  - rewrite (set_input_run _ s l h mask H). fold p. unfold mask.
    rewrite pressed_mask_fits by exact Hall. reflexivity.
  - intros i. unfold mask. rewrite (pressed_mask_bit pressed i Hall).
    split; intros [Hin Hi]; (split; [| exact Hi]).
    + rewrite Z.shiftl_1_l. exact Hin.
    + rewrite <- Z.shiftl_1_l. exact Hin.
Qed.

(** [set_input] sees its argument only modulo 256: two integers with the
    same low byte give the same run, whatever the state of the object. *)
Theorem set_input_congruent (b b' : Z) s :
  b mod 2 ^ 8 = b' mod 2 ^ 8 ->
  Zgbc.run (Zgbc.set_input b) s = Zgbc.run (Zgbc.set_input b') s.
Proof.
  intros H. unfold Zgbc.set_input. rewrite !land_0xFF, H. reflexivity.
Qed.

(** *** Sequences of calls *)

Lemma run_catch_pass (m : Zgbc.Py W unit) s :
  Zgbc.run (catch m (fun _ => ret tt)) s = (inr tt, snd (Zgbc.run m s)).
Proof.
  unfold Zgbc.run; cbn.
  destruct (runState (unEitherT m) s) as [[e | []] s']; reflexivity.
Qed.

Lemma get_frame_rgba_state s l h :
  Zgbc.attached s l h ->
  let p := Ctypes.c_void_p_param h in
  snd (Zgbc.run Zgbc.get_frame_rgba s) =
  Zgbc.called s
    (Zgbc.Call_get_frame_rgba p (Z.to_nat (Zgbc.FRAME_WIDTH * Zgbc.FRAME_HEIGHT)))
    (snd (Zgbc.zgbc_get_frame_rgba l p (Zgbc.world s))).
Proof.
  intros H p. unfold Zgbc.get_frame_rgba.
  rewrite new_array_ok by (unfold Zgbc.FRAME_WIDTH, Zgbc.FRAME_HEIGHT; lia).
  rewrite run_bind, run_lift_result. cbv beta iota.
  do 2 step H. rewrite run_bind, run_ffi. cbv beta iota.
  rewrite cast_to_bytes, run_lift_result.
  cbn [snd Ctypes.elems]. rewrite repeat_length. reflexivity.
Qed.

Lemma same_state s :
  s = Zgbc.mkSt (Zgbc.os s) (Zgbc.world s) (Zgbc.log s ++ []) (Zgbc.self s).
Proof. destruct s. cbn. now rewrite app_nil_r. Qed.

Lemma carry_one (p : Z) (c : Zgbc.call) :
  Zgbc.call_handle c = Some p -> Zgbc.is_free c = false -> Zgbc.carry p [c].
Proof. intros H1 H2. constructor; [split; assumption | constructor]. Qed.

Lemma perform_attached s l h (o : Zgbc.op) :
  Zgbc.attached s l h ->
  Zgbc.is_del o = false ->
  exists w calls,
    snd (Zgbc.run (Zgbc.perform o) s)
    = Zgbc.mkSt (Zgbc.os s) w (Zgbc.log s ++ calls) (Zgbc.self s) /\
    Zgbc.carry (Ctypes.c_void_p_param h) calls.
Proof.
  intros H Ho.
  assert (Hbytes : forall data,
             exists w calls,
               snd (Zgbc.run (Zgbc.load_rom (Zgbc.RomBytes data)) s)
               = Zgbc.mkSt (Zgbc.os s) w (Zgbc.log s ++ calls) (Zgbc.self s) /\
               Zgbc.carry (Ctypes.c_void_p_param h) calls).
  { intros data. rewrite (load_rom_run _ s l h data H). cbn [snd].
    eexists; eexists. split; [reflexivity | apply carry_one; reflexivity]. }
  destruct o as [[data | path] | | | b | g a | | n |]; cbn [Zgbc.perform];
    try discriminate Ho.
  - apply Hbytes.
  - rewrite load_rom_path_run.
    destruct (Zgbc.read_bytes (Zgbc.os s) path) as [data |]; [apply Hbytes |].
    cbn [snd]. exists (Zgbc.world s), []. split; [apply same_state | constructor].
  - rewrite (skip_boot_run _ s l h H). cbn [snd].
    eexists; eexists. split; [reflexivity | apply carry_one; reflexivity].
  - rewrite (frame_run _ s l h H). cbn [snd].
    eexists; eexists. split; [reflexivity | apply carry_one; reflexivity].
  - rewrite (set_input_run _ s l h b H). cbn [snd].
    eexists; eexists. split; [reflexivity | apply carry_one; reflexivity].
  - rewrite (set_headless_run _ s l h g a H). cbn [snd].
    unfold Zgbc.called; cbn [Zgbc.os Zgbc.world Zgbc.log Zgbc.self].
    rewrite <- app_assoc.
    eexists; eexists. split; [reflexivity |].
    constructor; [split; reflexivity | apply carry_one; reflexivity].
  - rewrite run_bind.
    pose proof (get_frame_rgba_state s l h H) as E. cbv zeta in E.
    destruct (Zgbc.run Zgbc.get_frame_rgba s) as [[e | v] s']; cbn [snd] in *;
      subst s'; eexists; eexists;
      (split; [reflexivity | apply carry_one; reflexivity]).
  - rewrite run_bind. destruct (Z.lt_ge_cases n 0) as [Hneg | Hpos].
    + rewrite (get_audio_samples_negative_run n s Hneg). cbn [snd].
      exists (Zgbc.world s), []. split; [apply same_state | constructor].
    + rewrite (get_audio_samples_run s l h n H Hpos). cbn [snd].
      eexists; eexists. split; [reflexivity | apply carry_one; reflexivity].
Qed.

Lemma carry_no_free (p : Z) (calls : list Zgbc.call) :
  Zgbc.carry p calls -> filter Zgbc.is_free calls = [].
Proof.
  intros Hc. induction Hc as [| c cs [_ Hf] _ IHc]; [reflexivity |].
  cbn. rewrite Hf. exact IHc.
Qed.

Lemma session_step (o : Zgbc.op) (rest : list Zgbc.op) s :
  Zgbc.run (Zgbc.session (o :: rest)) s
  = Zgbc.run (Zgbc.session rest) (snd (Zgbc.run (Zgbc.perform o) s)).
Proof. cbn [Zgbc.session]. rewrite run_bind, run_catch_pass. reflexivity. Qed.

Lemma session_returns (ops : list Zgbc.op) :
  forall s, fst (Zgbc.run (Zgbc.session ops) s) = inr tt.
Proof.
  induction ops as [| o rest IH]; intros s; [reflexivity |].
  rewrite session_step. apply IH.
Qed.

Lemma session_app (pre post : list Zgbc.op) :
  forall s,
    Zgbc.run (Zgbc.session (pre ++ post)) s
    = Zgbc.run (Zgbc.session post) (snd (Zgbc.run (Zgbc.session pre) s)).
Proof.
  induction pre as [| o pre IH]; intros s; [reflexivity |].
  cbn [app]. rewrite !session_step. apply IH.
Qed.

Lemma session_same_handle (ops : list Zgbc.op) :
  forall s l h,
    Zgbc.attached s l h ->
    h = None \/ existsb Zgbc.is_del ops = false ->
    exists w calls,
      snd (Zgbc.run (Zgbc.session ops) s)
      = Zgbc.mkSt (Zgbc.os s) w (Zgbc.log s ++ calls) (Zgbc.self s) /\
      Zgbc.carry (Ctypes.c_void_p_param h) calls.
Proof.
  induction ops as [| o rest IH]; intros s l h H Hd.
  - exists (Zgbc.world s), []. split; [apply same_state | constructor].
  - rewrite session_step. destruct (Zgbc.is_del o) eqn:Eo.
    + destruct Hd as [-> | Hd]; [| cbn in Hd; rewrite Eo in Hd; discriminate].
      destruct o; try discriminate Eo. cbn [Zgbc.perform].
      rewrite del_cleared_noop by apply H. cbn [snd].
      apply (IH s l None H). left; reflexivity.
    + destruct (perform_attached s l h o H Eo) as (w1 & c1 & -> & Hc1).
      destruct (IH (Zgbc.mkSt (Zgbc.os s) w1 (Zgbc.log s ++ c1) (Zgbc.self s)) l h)
        as (w2 & c2 & -> & Hc2).
      * exact H.
      * destruct Hd as [-> | Hd]; [left; reflexivity | right].
        cbn in Hd. rewrite Eo in Hd. exact Hd.
      * cbn [Zgbc.os Zgbc.log Zgbc.self]. exists w2, (c1 ++ c2).
        rewrite <- app_assoc. split; [reflexivity |].
        apply Forall_app. split; assumption.
Qed.

(** However the methods are mixed and whichever of them raise, as long as
    the finaliser has not run the object keeps its library and handle,
    every native call made carries the stored handle, and nothing is
    freed. *)
Theorem session_without_del (ops : list Zgbc.op) s l h :
  Zgbc.attached s l h ->
  existsb Zgbc.is_del ops = false ->
  exists w calls,
    Zgbc.run (Zgbc.session ops) s
    = (inr tt, Zgbc.mkSt (Zgbc.os s) w (Zgbc.log s ++ calls) (Zgbc.self s)) /\
    Zgbc.carry (Ctypes.c_void_p_param h) calls /\
    Zgbc.frees (Zgbc.mkSt (Zgbc.os s) w (Zgbc.log s ++ calls) (Zgbc.self s))
    = Zgbc.frees s.
Proof.
  intros H Hd.
  destruct (session_same_handle ops s l h H (or_intror Hd)) as (w & calls & E & Hc).
  exists w, calls. split; [| split; [exact Hc |]].
  - rewrite <- E, <- (session_returns ops s).
    destruct (Zgbc.run (Zgbc.session ops) s); reflexivity.
  - unfold Zgbc.frees; cbn [Zgbc.log]. rewrite filter_app, length_app.
    rewrite (carry_no_free _ calls Hc). cbn. lia.
Qed.

(** Across a finalisation: the calls made before [__del__] carry the
    handle, [__del__] frees exactly that handle, and every call made
    afterwards, further finalisations included, passes NULL and frees
    nothing; the object ends with [None] for handle. *)
Theorem session_across_del (pre post : list Zgbc.op) s l (p : Z) :
  Zgbc.attached s l (Some p) ->
  0 < p < 2 ^ 64 ->
  existsb Zgbc.is_del pre = false ->
  exists s' before after,
    Zgbc.run (Zgbc.session (pre ++ Zgbc.Op_del :: post)) s = (inr tt, s') /\
    Zgbc.log s' = Zgbc.log s ++ before ++ Zgbc.Call_free p :: after /\
    Zgbc.carry p before /\
    Zgbc.carry 0 after /\
    Zgbc.attached s' l None.
Proof.
  intros H Hp Hd.
  assert (Ep : Ctypes.c_void_p_param (Some p) = p) by (cbn; apply Z.mod_small; lia).
  destruct (session_same_handle pre s l (Some p) H (or_intror Hd))
    as (w1 & before & E1 & Hb).
  rewrite Ep in Hb.
  set (s1 := Zgbc.mkSt (Zgbc.os s) w1 (Zgbc.log s ++ before) (Zgbc.self s)) in *.
  set (s2 := Zgbc.mkSt (Zgbc.os s) (Zgbc.zgbc_free l p w1)
                       ((Zgbc.log s ++ before) ++ [Zgbc.Call_free p])
                       (Zgbc.mkGameBoy (Some l) (Some None))).
  assert (E2 : snd (Zgbc.run Zgbc.__del__ s1) = s2).
  { rewrite del_run. cbn [snd]. unfold s1; cbn [Zgbc.self Zgbc.os Zgbc.world Zgbc.log].
    destruct H as [-> ->]. rewrite Ep. cbn [Ctypes.truthy].
    destruct (Z.eqb_spec p 0); [lia | reflexivity]. }
  assert (H2 : Zgbc.attached s2 l None) by (split; reflexivity).
  destruct (session_same_handle post s2 l None H2 (or_introl eq_refl))
    as (w3 & after & E3 & Ha).
  exists (snd (Zgbc.run (Zgbc.session (pre ++ Zgbc.Op_del :: post)) s)), before, after.
  split; [| split; [| split; [exact Hb | split; [exact Ha |]]]].
  - rewrite <- (session_returns (pre ++ Zgbc.Op_del :: post) s).
    destruct (Zgbc.run (Zgbc.session (pre ++ Zgbc.Op_del :: post)) s); reflexivity.
  - rewrite session_app, E1, session_step. cbn [Zgbc.perform].
    rewrite E2, E3. cbn [Zgbc.log s2]. unfold s2; cbn [Zgbc.log].
    rewrite <- !app_assoc. reflexivity.
  - rewrite session_app, E1, session_step. cbn [Zgbc.perform].
    rewrite E2, E3. split; reflexivity.
Qed.

(** *** Construction and finalisation together *)

(** What the constructor obtained, the finaliser gives back, also when
    the constructor raised: after [GameBoy(rom, lib=l)] and one run of
    [__del__] the native side has seen create, the calls of [load_rom] on
    the new handle if any, and then exactly one free of that handle; when
    create returned NULL nothing is freed. *)
Theorem constructed_handle_is_released (rom : option Zgbc.rom_arg) l s :
  let p := fst (Zgbc.zgbc_new l (Zgbc.world s)) in
  0 <= p < 2 ^ 64 ->
  let s1 := snd (Zgbc.run (Zgbc.construct rom (Some l)) s) in
  let s2 := snd (Zgbc.run Zgbc.__del__ s1) in
  exists loads,
    Zgbc.log s2
    = Zgbc.log s ++ Zgbc.Call_new :: loads
                 ++ (if p =? 0 then [] else [Zgbc.Call_free p]) /\
    Zgbc.carry p loads /\
    (p = 0 \/ rom = None -> loads = []) /\
    Zgbc._handle (Zgbc.self s2) = Some None.
Proof.
  intros p Hp s1 s2.
  set (w1 := snd (Zgbc.zgbc_new l (Zgbc.world s))).
  set (created := fun handle =>
         Zgbc.mkSt (Zgbc.os s) w1 (Zgbc.log s ++ [Zgbc.Call_new])
                   (Zgbc.mkGameBoy (Some l) (Some handle))).
  assert (E : Zgbc.run (Zgbc.construct rom (Some l)) s =
              if p =? 0
              then (inl (RuntimeError "zgbc_new() returned NULL" None), created None)
              else match rom with
                   | Some r => Zgbc.run (Zgbc.load_rom r) (created (Some p))
                   | None => (inr tt, created (Some p))
                   end).
  { rewrite construct_run. apply (init_run _ rom l (Zgbc.fresh s)). }
  assert (Hs2 : Zgbc._handle (Zgbc.self s2) = Some None) by apply del_clears.
  unfold s2, s1. rewrite E. destruct (Z.eqb_spec p 0) as [Hz | Hnz].
  - exists []. cbn [snd]. rewrite del_cleared_noop by reflexivity.
    cbn [snd created Zgbc.log].
    split; [reflexivity | split; [constructor | split; reflexivity]].
  - assert (Ep : Ctypes.c_void_p_param (Some p) = p)
      by (cbn; apply Z.mod_small; lia).
    assert (Hc : Zgbc.attached (created (Some p)) l (Some p)) by (split; reflexivity).
    assert (Hdel : forall w lg,
               snd (Zgbc.run Zgbc.__del__
                      (Zgbc.mkSt (Zgbc.os s) w lg
                                 (Zgbc.mkGameBoy (Some l) (Some (Some p)))))
               = Zgbc.mkSt (Zgbc.os s) (Zgbc.zgbc_free l p w)
                           (lg ++ [Zgbc.Call_free p])
                           (Zgbc.mkGameBoy (Some l) (Some None))).
    { intros w lg. rewrite del_run. cbn [snd Zgbc.self Zgbc._lib Zgbc._handle].
      rewrite Ep. cbn [Ctypes.truthy Zgbc.os Zgbc.world Zgbc.log].
      destruct (Z.eqb_spec p 0); [contradiction | reflexivity]. }
    destruct rom as [r |].
    + destruct (perform_attached (created (Some p)) l (Some p)
                  (Zgbc.Op_load_rom r) Hc eq_refl) as (w & loads & El & Hl).
      cbn [Zgbc.perform] in El. rewrite Ep in Hl.
      exists loads. rewrite El. unfold created.
      cbn [Zgbc.os Zgbc.log Zgbc.self]. rewrite Hdel. cbn [Zgbc.log Zgbc.self Zgbc._handle].
      split; [| split; [exact Hl | split; [| reflexivity]]].
      * rewrite <- !app_assoc. reflexivity.
      * intros [Hz | Hr]; [contradiction | discriminate].
    + exists []. cbn [snd]. unfold created.
      rewrite Hdel. cbn [Zgbc.log Zgbc.self Zgbc._handle].
      split; [| split; [constructor | split; [reflexivity | reflexivity]]].
      rewrite <- app_assoc. reflexivity.
Qed.

(** When no library is supplied and none can be found, the constructor
    raises the [RuntimeError] of [load_library] before anything is created:
    no native call is made, the object has no attribute, and running
    [__del__] on it afterwards only stores [None] in [_handle]. *)
Theorem construct_without_library (rom : option Zgbc.rom_arg) s :
  let names := Zgbc._default_library_names (Zgbc.sys_platform (Zgbc.os s)) in
  Zgbc.environ (Zgbc.os s) "ZGBC_LIB" = None \/
  Zgbc.environ (Zgbc.os s) "ZGBC_LIB" = Some "" ->
  (forall n, In n names -> Zgbc.dlopen (Zgbc.os s) n = None) ->
  Zgbc.run (Zgbc.construct rom None) s
  = (inl (RuntimeError Zgbc.not_found (Some (OSError (List.last names "")))),
     Zgbc.fresh s) /\
  Zgbc.run Zgbc.__del__ (Zgbc.fresh s)
  = (inr tt,
     Zgbc.mkSt (Zgbc.os s) (Zgbc.world s) (Zgbc.log s)
               (Zgbc.mkGameBoy None (Some None))).
Proof.
  intros names Henv Hfail. split.
  - rewrite construct_run. unfold Zgbc.__init__. rewrite run_bind.
    cbn [Zgbc.load_library]. rewrite run_get_bind.
    cbn [Zgbc.fresh Zgbc.os]. fold names.
    assert (E : Zgbc.run (Zgbc.try_names names None) (Zgbc.fresh s)
                = (inl (RuntimeError Zgbc.not_found
                          (Some (OSError (List.last names "")))), Zgbc.fresh s)).
    { rewrite try_names_all_fail by exact Hfail.
      unfold names, Zgbc._default_library_names.
      destruct (String.prefix "win" _); [reflexivity |].
      destruct (String.eqb _ "darwin"); reflexivity. }
    destruct Henv as [-> | ->]; cbn [String.eqb]; rewrite E; reflexivity.
  - rewrite del_run. reflexivity.
Qed.

(** *** Repeated frames *)

(** With any library, [n] calls of [frame] return [None], make exactly
    [n] native frame calls on the stored handle, one after the other, and
    leave the object as it was. *)
Theorem frames_are_native_frames (n : nat) s l h :
  Zgbc.attached s l h ->
  let p := Ctypes.c_void_p_param h in
  Zgbc.run (Zgbc.times n Zgbc.frame) s =
  (inr tt,
   Zgbc.mkSt (Zgbc.os s)
     (Nat.iter n (Zgbc.zgbc_frame l p) (Zgbc.world s))
     (Zgbc.log s ++ repeat (Zgbc.Call_frame p) n)
     (Zgbc.self s)).
Proof.
  intros H p. revert s H. induction n as [| n IH]; intros s H.
  - cbn [Zgbc.times Nat.iter repeat]. rewrite run_ret, app_nil_r.
    destruct s; reflexivity.
  - cbn [Zgbc.times]. rewrite run_bind, (frame_run _ s l h H). fold p.
    rewrite IH by exact H.
    cbn [Zgbc.called Zgbc.os Zgbc.world Zgbc.log Zgbc.self].
    rewrite <- app_assoc. cbn [app repeat].
    rewrite <- Nat.iter_succ_r. reflexivity.
Qed.

End UseFacts.

(** * Concrete runs *)

Example booted_is_constructed :
  Zgbc.run (Zgbc.construct None (Some Demo.libzgbc)) Demo.start = (inr tt, Demo.booted).
Proof. reflexivity. Qed.

Lemma booted_attached : Zgbc.attached Demo.booted Demo.libzgbc (Some 1).
Proof. split; reflexivity. Defined.

Lemma booted_owns :
  Core.owns 70224 Demo.accepts 8 Demo.picture Demo.samples
            Demo.booted 1 Core.power_on.
Proof. split; [exact booted_attached | split; [lia | reflexivity]]. Defined.

Lemma loaded_owns :
  Core.owns 70224 Demo.accepts 8 Demo.picture Demo.samples
            Demo.loaded 1 Demo.cartridge_in.
Proof. split; [split; reflexivity | split; [lia | reflexivity]]. Defined.

Lemma played_attached : Zgbc.attached Demo.played Demo.libzgbc (Some 1).
Proof. split; reflexivity. Defined.

Lemma get_audio_samples_default_raises :
  Zgbc.attached Demo.played Demo.libzgbc (Some 1) /\
  0 <= 2048 /\
  Zgbc.run (Zgbc.get_audio_samples 2048) Demo.played =
  (inl (TypeError "memoryview: cannot cast between two non-byte formats"),
   Zgbc.called Demo.played
     (Zgbc.Call_get_audio_samples 1 (Z.to_nat 2048) 2048)
     (snd (Zgbc.zgbc_get_audio_samples Demo.libzgbc 1 2048
             (Zgbc.world Demo.played)))).
Proof.
  split; [exact played_attached | split; [lia |]].
  exact (get_audio_samples_raises _ _ _ _ 2048 played_attached ltac:(lia)).
Defined.

(** The three queued samples are taken off the native queue by the call
    that then raises. *)
Example samples_lost_on_raise :
  option_map Core.audio_queue (Core.heap (Zgbc.world Demo.played) 1)
  = Some [1; 2; 3] /\
  option_map Core.audio_queue
    (Core.heap (Zgbc.world (snd (Zgbc.run (Zgbc.get_audio_samples 2048)
                                          Demo.played))) 1)
  = Some [].
Proof. split; reflexivity. Qed.

(** The slice bound [count * 2] is applied to items of two bytes: with
    three samples written into a buffer of eight the slice holds six items,
    and with a full buffer it holds all of them. *)
Example audio_slice_is_in_items :
  let buf := Ctypes.fill (Ctypes.mkArray Ctypes.c_int16_t (repeat 0 8%nat)) [1; 2; 3] in
  Ctypes.view_len (Ctypes.slice_to (Ctypes.memoryview_of buf) (3 * 2)) = 6 /\
  Ctypes.view_bytes (Ctypes.slice_to (Ctypes.memoryview_of buf) (3 * 2))
  = [1; 0; 2; 0; 3; 0; 0; 0; 0; 0; 0; 0].
Proof. split; reflexivity. Qed.

Lemma load_rom_rejected_then_accepted :
  Zgbc.attached Demo.booted Demo.libzgbc (Some 1) /\
  Zgbc.raised (Zgbc.run (Zgbc.load_rom (Zgbc.RomBytes [])) Demo.booted) = true /\
  fst (Zgbc.run (Zgbc.load_rom (Zgbc.RomBytes Demo.tiny_rom))
         (snd (Zgbc.run (Zgbc.load_rom (Zgbc.RomBytes [])) Demo.booted)))
  = inr tt.
Proof.
  split; [exact booted_attached |].
  destruct (load_rom_raises_iff_native_fails _ _ _ _ [] booted_attached)
    as (Hr & _ & _ & _ & _ & Hagain).
  split; [exact Hr | apply (Hagain Demo.tiny_rom); reflexivity].
Defined.

Lemma three_frames_after_load :
  Core.owns 70224 Demo.accepts 8 Demo.picture Demo.samples
            Demo.booted 1 Core.power_on /\
  Demo.accepts (Ctypes.elems (Ctypes.from_buffer_copy Demo.tiny_rom)) = true /\
  exists s1 s2,
    Zgbc.run (Zgbc.load_rom (Zgbc.RomBytes Demo.tiny_rom)) Demo.booted = (inr tt, s1) /\
    Zgbc.run (Zgbc.times 3 Zgbc.frame) s1 = (inr tt, s2) /\
    Core.elapsed (Zgbc.world s2) 1 = Some (3 * 70224).
Proof.
  split; [exact booted_owns | split; [reflexivity |]].
  destruct (frames_consume_fixed_ticks 70224 Demo.accepts 8 Demo.picture
              Demo.samples Demo.booted 1 Core.power_on Demo.tiny_rom 3
              booted_owns eq_refl)
    as (s1 & s2 & Hload & Hrun & _ & _ & Hticks & _).
  exists s1, s2. split; [exact Hload | split; [exact Hrun | exact Hticks]].
Defined.

Lemma frame_view_of_booted :
  Zgbc.attached Demo.booted Demo.libzgbc (Some 1) /\
  exists view,
    fst (Zgbc.run Zgbc.get_frame_rgba Demo.booted) = inr view /\
    Ctypes.format view = "B" /\
    Z.of_nat (List.length (Ctypes.view_bytes view)) = 160 * 144 * 4.
Proof.
  split; [exact booted_attached |].
  destruct (get_frame_rgba_view _ _ _ _ booted_attached)
    as (view & Hrun & Hfmt & _ & Hlen & _).
  exists view. split; [rewrite Hrun; reflexivity | split; [exact Hfmt | exact Hlen]].
Defined.

Lemma skip_boot_shows_cartridge :
  Core.owns 70224 Demo.accepts 8 Demo.picture Demo.samples
            Demo.loaded 1 Demo.cartridge_in /\
  Core.bus_read_low Demo.boot Demo.cartridge_in 0 = 0x31 /\
  exists s' g',
    Zgbc.run Zgbc.skip_boot Demo.loaded = (inr tt, s') /\
    Zgbc.log s' = Zgbc.log Demo.loaded ++ [Zgbc.Call_write 1 0xFF50 1] /\
    Core.heap (Zgbc.world s') 1 = Some g' /\
    Core.bus_read_low Demo.boot g' 0 = 0xC3.
Proof.
  split; [exact loaded_owns | split; [reflexivity |]].
  destruct (skip_boot_is_one_write 70224 Demo.boot Demo.accepts 8 Demo.picture
              Demo.samples Demo.loaded 1 Demo.cartridge_in loaded_owns)
    as (s' & g' & Hrun & Hlog & _ & _ & Hheap & _ & _ & Hread & _).
  exists s', g'.
  split; [exact Hrun | split; [exact Hlog | split; [exact Hheap | exact Hread]]].
Defined.

Lemma set_input_out_of_range :
  Zgbc.attached Demo.booted Demo.libzgbc (Some 1) /\
  Zgbc.run (Zgbc.set_input (-248)) Demo.booted =
  (inr tt,
   Zgbc.called Demo.booted (Zgbc.Call_set_input 1 Zgbc.Buttons.START)
     (Zgbc.zgbc_set_input Demo.libzgbc 1 Zgbc.Buttons.START
        (Zgbc.world Demo.booted))).
Proof.
  split; [exact booted_attached |].
  exact (proj1 (set_input_passes_low_byte _ _ _ _ (-248) booted_attached)).
Defined.

Lemma set_headless_on_booted :
  Zgbc.attached Demo.booted Demo.libzgbc (Some 1) /\
  Zgbc.run (Zgbc.set_headless false true) Demo.booted =
  (inr tt,
   Zgbc.mkSt (Zgbc.os Demo.booted)
     (Zgbc.zgbc_set_render_audio Demo.libzgbc 1 true
        (Zgbc.zgbc_set_render_graphics Demo.libzgbc 1 false
           (Zgbc.world Demo.booted)))
     (Zgbc.log Demo.booted ++
      [Zgbc.Call_set_render_graphics 1 false; Zgbc.Call_set_render_audio 1 true])
     (Zgbc.self Demo.booted)).
Proof.
  split; [exact booted_attached |].
  exact (set_headless_forwards_flags _ _ _ _ false true booted_attached).
Defined.

(** C7 as stated fails: the native create call returns a non-null handle,
    yet construction raises, because the ROM argument is rejected by
    [load_rom]. *)
Lemma construct_raises_with_live_handle :
  let out :=
    Zgbc.run (Zgbc.construct (Some (Zgbc.RomBytes [])) (Some Demo.libzgbc))
             Demo.start in
  fst (Zgbc.zgbc_new Demo.libzgbc (Zgbc.world Demo.start)) = 1 /\
  fst out = inl (RuntimeError "zgbc_load_rom() failed" None) /\
  Zgbc._handle (Zgbc.self (snd out)) = Some (Some 1) /\
  ~ (Zgbc.raised out = true <->
     fst (Zgbc.zgbc_new Demo.libzgbc (Zgbc.world Demo.start)) = 0).
Proof.
  cbv zeta. split; [reflexivity | split; [reflexivity | split; [reflexivity |]]].
  intros [Hraise _].
  assert (H : fst (Zgbc.zgbc_new Demo.libzgbc (Zgbc.world Demo.start)) = 0)
    by (apply Hraise; reflexivity).
  discriminate H.
Qed.

Lemma construct_on_start :
  Zgbc.run (Zgbc.construct None (Some Demo.libzgbc)) Demo.start
  = (inr tt,
     Zgbc.mkSt (Zgbc.os Demo.start)
       (snd (Zgbc.zgbc_new Demo.libzgbc (Zgbc.world Demo.start)))
       (Zgbc.log Demo.start ++ [Zgbc.Call_new])
       (Zgbc.mkGameBoy (Some Demo.libzgbc) (Some (Some 1)))) /\
  Zgbc.run (Zgbc.construct None None) Demo.start
  = Zgbc.run (Zgbc.construct None (Some Demo.libzgbc)) Demo.start.
Proof.
  destruct (construct_outcome _ None Demo.libzgbc Demo.start)
    as (_ & Hlive & _ & _ & _ & Hresolved).
  split.
  - apply Hlive; [discriminate | reflexivity].
  - apply Hresolved. reflexivity.
Defined.

Lemma load_library_on_hosts :
  Zgbc.run (Zgbc.load_library None) Demo.start = (inr Demo.libzgbc, Demo.start) /\
  Zgbc.run (Zgbc.load_library None)
           (Zgbc.mkSt Demo.bare Demo.empty_world [] (Zgbc.mkGameBoy None None))
  = (inl (RuntimeError Zgbc.not_found (Some (OSError "zgbc.dylib"))),
     Zgbc.mkSt Demo.bare Demo.empty_world [] (Zgbc.mkGameBoy None None)).
Proof.
  split.
  - destruct (load_library_precedence _ Demo.start) as (_ & _ & Hdef & _).
    destruct (Hdef (or_introl eq_refl)) as [Hfirst _].
    apply (Hfirst [] "libzgbc.so" []); [reflexivity | intros n [] | reflexivity].
  - destruct (load_library_precedence _
                (Zgbc.mkSt Demo.bare Demo.empty_world [] (Zgbc.mkGameBoy None None)))
      as (_ & _ & Hdef & _).
    destruct (Hdef (or_introl eq_refl)) as [_ Hnone].
    apply Hnone. intros n _. reflexivity.
Defined.

Lemma del_three_times :
  fst (Zgbc.run (Zgbc.times 3 Zgbc.__del__) Demo.booted) = inr tt /\
  (Zgbc.frees (snd (Zgbc.run (Zgbc.times 3 Zgbc.__del__) Demo.booted))
   <= Zgbc.frees Demo.booted + 1)%nat.
Proof.
  destruct (del_frees_at_most_once _ Demo.booted 3) as (Hok & Hle & _).
  split; [exact Hok | exact Hle].
Defined.

Example del_three_times_log :
  Zgbc.log (snd (Zgbc.run (Zgbc.times 3 Zgbc.__del__) Demo.booted))
  = [Zgbc.Call_new; Zgbc.Call_free 1].
Proof. reflexivity. Qed.

(** ** Runs for the further properties *)

Lemma missing_rom_file :
  Zgbc.read_bytes (Zgbc.os Demo.booted) "missing.gb" = None /\
  Zgbc.run (Zgbc.load_rom (Zgbc.RomPath "missing.gb")) Demo.booted
  = (inl (OSError "missing.gb"), Demo.booted).
Proof.
  split; [reflexivity |].
  exact (load_rom_unreadable_path _ "missing.gb" Demo.booted eq_refl).
Defined.

Lemma booted_with_rom_attached :
  Zgbc.attached Demo.booted_with_rom Demo.libzgbc (Some 1).
Proof. split; reflexivity. Defined.

Lemma rom_file_loaded :
  Zgbc.attached Demo.booted_with_rom Demo.libzgbc (Some 1) /\
  Zgbc.read_bytes (Zgbc.os Demo.booted_with_rom) "roms/tiny.gb" = Some Demo.tiny_rom /\
  Zgbc.run (Zgbc.load_rom (Zgbc.RomPath "roms/tiny.gb")) Demo.booted_with_rom
  = Zgbc.run (Zgbc.load_rom (Zgbc.RomBytes Demo.tiny_rom)) Demo.booted_with_rom /\
  fst (Zgbc.run (Zgbc.load_rom (Zgbc.RomPath "roms/tiny.gb")) Demo.booted_with_rom)
  = inr tt.
Proof.
  split; [exact booted_with_rom_attached | split; [reflexivity |]].
  destruct (load_rom_path_as_bytes _ "roms/tiny.gb" Demo.tiny_rom
              Demo.booted_with_rom Demo.libzgbc (Some 1)
              booted_with_rom_attached eq_refl) as [Hsame Hout].
  split; [exact Hsame | rewrite Hout; reflexivity].
Defined.

Lemma tiny_rom_passed :
  Zgbc.attached Demo.booted Demo.libzgbc (Some 1) /\
  Z.of_nat (List.length Demo.tiny_rom) < 2 ^ 64 /\
  exists buf,
    Zgbc.log (snd (Zgbc.run (Zgbc.load_rom (Zgbc.RomBytes Demo.tiny_rom)) Demo.booted))
    = Zgbc.log Demo.booted ++ [Zgbc.Call_load_rom 1 buf 1] /\
    List.length buf = 1%nat /\
    Forall (fun v => 0 <= v < 256) buf /\
    map (fun v => Byte.of_N (Z.to_N v)) buf = [Some Byte.xc3].
Proof.
  split; [exact booted_attached | split; [reflexivity |]].
  exact (load_rom_passes_image _ Demo.booted Demo.libzgbc (Some 1) Demo.tiny_rom
           booted_attached eq_refl).
Defined.

Lemma negative_capacity :
  -1 < 0 /\
  Zgbc.run (Zgbc.get_audio_samples (-1)) Demo.played
  = (inl (ValueError "Array length must be >= 0"), Demo.played).
Proof.
  split; [reflexivity |].
  exact (proj1 (get_audio_samples_negative _ (-1) Demo.played eq_refl)).
Defined.

Lemma a_and_start_pressed :
  Zgbc.attached Demo.booted Demo.libzgbc (Some 1) /\
  Forall (fun b => In b Zgbc.all_buttons) [Zgbc.Buttons.A; Zgbc.Buttons.START] /\
  Zgbc.run (Zgbc.set_input (Z.lor Zgbc.Buttons.A Zgbc.Buttons.START)) Demo.booted
  = (inr tt,
     Zgbc.called Demo.booted (Zgbc.Call_set_input 1 9)
       (Zgbc.zgbc_set_input Demo.libzgbc 1 9 (Zgbc.world Demo.booted))).
Proof.
  assert (H : Forall (fun b => In b Zgbc.all_buttons)
                     [Zgbc.Buttons.A; Zgbc.Buttons.START]).
  { constructor; [left; reflexivity |].
    constructor; [do 3 right; left; reflexivity | constructor]. }
  split; [exact booted_attached | split; [exact H |]].
  exact (proj1 (set_input_passes_pressed_buttons _ Demo.booted Demo.libzgbc (Some 1)
                  [Zgbc.Buttons.A; Zgbc.Buttons.START] booted_attached H)).
Defined.

Lemma same_low_byte :
  264 mod 2 ^ 8 = 8 mod 2 ^ 8 /\
  Zgbc.run (Zgbc.set_input 264) Demo.booted
  = Zgbc.run (Zgbc.set_input 8) Demo.booted.
Proof.
  split; [reflexivity |].
  exact (set_input_congruent _ 264 8 Demo.booted eq_refl).
Defined.

Lemma mixed_session :
  Zgbc.attached Demo.booted Demo.libzgbc (Some 1) /\
  exists w calls,
    Zgbc.run (Zgbc.session [Zgbc.Op_frame; Zgbc.Op_get_audio_samples 4;
                            Zgbc.Op_load_rom (Zgbc.RomBytes []);
                            Zgbc.Op_set_input 1]) Demo.booted
    = (inr tt,
       Zgbc.mkSt (Zgbc.os Demo.booted) w (Zgbc.log Demo.booted ++ calls)
                 (Zgbc.self Demo.booted)) /\
    Zgbc.carry 1 calls.
Proof.
  split; [exact booted_attached |].
  destruct (session_without_del _
              [Zgbc.Op_frame; Zgbc.Op_get_audio_samples 4;
               Zgbc.Op_load_rom (Zgbc.RomBytes []); Zgbc.Op_set_input 1]
              Demo.booted Demo.libzgbc (Some 1) booted_attached eq_refl)
    as (w & calls & Hrun & Hc & _).
  exists w, calls. split; [exact Hrun | exact Hc].
Defined.

Lemma session_with_del :
  Zgbc.attached Demo.booted Demo.libzgbc (Some 1) /\
  0 < 1 < 2 ^ 64 /\
  exists s' before after,
    Zgbc.run (Zgbc.session ([Zgbc.Op_frame] ++ Zgbc.Op_del
                              :: [Zgbc.Op_frame; Zgbc.Op_del])) Demo.booted
    = (inr tt, s') /\
    Zgbc.log s' = Zgbc.log Demo.booted ++ before ++ Zgbc.Call_free 1 :: after /\
    Zgbc.carry 1 before /\
    Zgbc.carry 0 after.
Proof.
  split; [exact booted_attached | split; [lia |]].
  destruct (session_across_del _ [Zgbc.Op_frame] [Zgbc.Op_frame; Zgbc.Op_del]
              Demo.booted Demo.libzgbc 1 booted_attached ltac:(lia) eq_refl)
    as (s' & before & after & Hrun & Hlog & Hb & Ha & _).
  exists s', before, after.
  split; [exact Hrun | split; [exact Hlog | split; [exact Hb | exact Ha]]].
Defined.

Example session_with_del_log :
  Zgbc.log (snd (Zgbc.run (Zgbc.session [Zgbc.Op_frame; Zgbc.Op_del;
                                         Zgbc.Op_frame; Zgbc.Op_del])
                          Demo.booted))
  = [Zgbc.Call_new; Zgbc.Call_frame 1; Zgbc.Call_free 1; Zgbc.Call_frame 0].
Proof. reflexivity. Qed.

Lemma rejected_rom_still_released :
  0 <= fst (Zgbc.zgbc_new Demo.libzgbc (Zgbc.world Demo.start)) < 2 ^ 64 /\
  exists loads,
    Zgbc.log (snd (Zgbc.run Zgbc.__del__
                     (snd (Zgbc.run (Zgbc.construct (Some (Zgbc.RomBytes []))
                                                    (Some Demo.libzgbc))
                                    Demo.start))))
    = Zgbc.log Demo.start ++ Zgbc.Call_new :: loads ++ [Zgbc.Call_free 1] /\
    Zgbc.carry 1 loads.
Proof.
  assert (H : 0 <= fst (Zgbc.zgbc_new Demo.libzgbc (Zgbc.world Demo.start)) < 2 ^ 64)
    by (change (0 <= 1 < 2 ^ 64); lia).
  split; [exact H |].
  destruct (constructed_handle_is_released _ (Some (Zgbc.RomBytes []))
              Demo.libzgbc Demo.start H) as (loads & Hlog & Hc & _).
  exists loads. split; [exact Hlog | exact Hc].
Defined.

Lemma no_library_anywhere :
  Zgbc.run (Zgbc.construct None None) Demo.stranded
  = (inl (RuntimeError Zgbc.not_found (Some (OSError "zgbc.dylib"))),
     Zgbc.fresh Demo.stranded).
Proof.
  exact (proj1 (construct_without_library _ None Demo.stranded
                  (or_introl eq_refl) (fun n _ => eq_refl))).
Defined.

Lemma three_native_frames :
  Zgbc.attached Demo.booted Demo.libzgbc (Some 1) /\
  Zgbc.run (Zgbc.times 3 Zgbc.frame) Demo.booted
  = (inr tt,
     Zgbc.mkSt (Zgbc.os Demo.booted)
       (Nat.iter 3 (Zgbc.zgbc_frame Demo.libzgbc 1) (Zgbc.world Demo.booted))
       (Zgbc.log Demo.booted ++ repeat (Zgbc.Call_frame 1) 3)
       (Zgbc.self Demo.booted)).
Proof.
  split; [exact booted_attached |].
  exact (frames_are_native_frames _ 3 Demo.booted Demo.libzgbc (Some 1)
           booted_attached).
Defined.
